(** * Firebot chat moderation manager

    A shallow embedding of
    [src/backend/chat/moderation/chat-moderation-manager.js]: the policy
    store (settings and banned words), the supervisor of the moderation
    worker and the per-message dispatcher [moderateMessage], followed by
    the properties the specification states about them.

    Conventions of the embedding.
    - A JavaScript string is the list of its UTF-16 code units.
    - A JavaScript number is an integer ([Z]).  How the engine prints
      a number ([Number.prototype.toString]) and how it lower-cases a
      string ([String.prototype.toLowerCase]) are taken from the
      engine, beside the other collaborators.  The one division of the
      source ([minutesInChannel / 60]) is kept exact as a rational: for
      safe integers ([isSafeInteger]) the quotient is below 2^48, where
      the rounding of the engine is under 1/64 and cannot carry a
      quotient that is a sixtieth or more below an integer up to it.
      A theorem that depends on the print of a number, or on a quotient
      being below the threshold, states that the numbers are safe
      integers.
    - A property that may be missing ([undefined] or [null]) is an
      [option]; reading a property of a missing object raises
      [TypeError], as the engine does.
    - The module-level variables of the source are the fields of [State];
      calls to the collaborators (chat transport, worker, storage, permit
      command) are appended to the [effects] of the state in call order.
      Calls to the logger are not recorded.
    - [moderateMessage] is an [async] function: a thrown exception is the
      rejection of the promise it returns.  The dispatcher is modelled
      as running without interleaving at its single [await]. *)

From Stdlib Require Import String Ascii DecimalString.
From Stdlib Require Import List NArith ZArith QArith Bool Lia.
Import ListNotations.
Close Scope Q_scope.

Set Implicit Arguments.

(* ------------------------------------------------------------------ *)
(** ** JavaScript strings *)

Module JsString.

(** A UTF-16 code unit. *)
Definition unit16 := N.

Definition t := list unit16.

Definition eqb (a b : t) : bool :=
  if list_eq_dec N.eq_dec a b then true else false.

(** A literal whose characters are all below U+0100. *)
Fixpoint lit (s : string) : t :=
  match s with
  | EmptyString => []
  | String c s' => N_of_ascii c :: lit s'
  end.

(** The truthiness of a string: the empty string is falsy. *)
Definition truthy (s : t) : bool :=
  match s with [] => false | _ :: _ => true end.

(** The decimal numeral of an integer, with a minus sign when it is
    negative. *)
Definition decimal (z : Z) : t :=
  lit (NilZero.string_of_int (Z.to_int z)).

(** *** [String.prototype.replace] with a string pattern *)

Fixpoint startsWith (pat s : t) : bool :=
  match pat, s with
  | [], _ => true
  | _ :: _, [] => false
  | p :: pat', c :: s' => (p =? c)%N && startsWith pat' s'
  end.

(** The first occurrence of [pat] in [s]: what precedes it and what
    follows it. *)
Fixpoint splitFirst (pat s : t) : option (t * t) :=
  if startsWith pat s then Some ([], skipn (length pat) s)
  else match s with
       | [] => None
       | c :: s' =>
           match splitFirst pat s' with
           | Some (pre, post) => Some (c :: pre, post)
           | None => None
           end
       end.

(** GetSubstitution for a string pattern (no capture groups): [$$] is
    a dollar sign, [$&] the matched text, [$`] what precedes the match
    and [$'] what follows it; any other dollar sign stands for
    itself. *)
Fixpoint getSubstitution (matched pre post replacement : t) : t :=
  match replacement with
  | [] => []
  | c :: r1 =>
      if (c =? 36)%N then
        match r1 with
        | [] => [c]
        | d :: r2 =>
            if (d =? 36)%N then 36%N :: getSubstitution matched pre post r2
            else if (d =? 38)%N then matched ++ getSubstitution matched pre post r2
            else if (d =? 96)%N then pre ++ getSubstitution matched pre post r2
            else if (d =? 39)%N then post ++ getSubstitution matched pre post r2
            else c :: getSubstitution matched pre post r1
        end
      else c :: getSubstitution matched pre post r1
  end.

(** [s.replace(pat, replacement)]: only the first occurrence is
    replaced. *)
Definition replace (s pat replacement : t) : t :=
  match splitFirst pat s with
  | None => s
  | Some (pre, post) => pre ++ getSubstitution pat pre post replacement ++ post
  end.

(** *** The regular expressions of the source *)

(** [\w] without the [u] flag: A-Z, a-z, 0-9 and the underscore (the
    [i] flag adds no code unit to this class). *)
Definition isWord (c : unit16) : bool :=
  ((65 <=? c) && (c <=? 90) || (97 <=? c) && (c <=? 122)
   || (48 <=? c) && (c <=? 57) || (c =? 95))%N.

(** The longest prefix of word characters, and the rest. *)
Fixpoint spanWord (s : t) : t * t :=
  match s with
  | [] => ([], [])
  | c :: s' =>
      if isWord c then let (run, rest) := spanWord s' in (c :: run, rest)
      else ([], s)
  end.

(** [/[\w]{2,}[.][\w]{2,}/] anchored at the head of [s].  The first
    group is greedy and the dot is not a word character, so the group
    takes the whole run of word characters. *)
Definition urlMatchHere (s : t) : bool :=
  let (run, rest) := spanWord s in
  (2 <=? length run)%nat
  && match rest with
     | d :: rest' => (d =? 46)%N && (2 <=? length (fst (spanWord rest')))%nat
     | [] => false
     end.

(** [new RegExp(/[\w]{2,}[.][\w]{2,}/, "gi").test(s)] on a fresh
    expression ([lastIndex] is 0): a match at some position. *)
Fixpoint urlTest (s : t) : bool :=
  urlMatchHere s || match s with [] => false | _ :: s' => urlTest s' end.

(** Code points of a string, as the [u] flag reads it: a high
    surrogate followed by a low one is a single code point. *)
Definition isHigh (c : unit16) : bool := ((55296 <=? c) && (c <=? 56319))%N.
Definition isLow (c : unit16) : bool := ((56320 <=? c) && (c <=? 57343))%N.

Fixpoint codePoints (s : t) : list N :=
  match s with
  | [] => []
  | c :: s' =>
      match s' with
      | d :: s'' =>
          if isHigh c && isLow d
          then (65536 + (c - 55296) * 1024 + (d - 56320))%N :: codePoints s''
          else c :: codePoints s'
      | [] => [c]
      end
  end.

End JsString.

Definition jsString := JsString.t.

Definition js (s : string) : jsString := JsString.lit s.
Arguments js s%_string.

(** [Number.isSafeInteger]: the integers every one of which the engine
    holds exactly. *)
Definition isSafeInteger (z : Z) : bool :=
  (Z.abs z <=? 2 ^ 53 - 1)%Z.

(* ------------------------------------------------------------------ *)
(** ** Data model *)

Definition RoleId := jsString.

(** [chatModerationSettings.bannedWordList] *)
Module BannedWordList.
Record t := mk { enabled : bool }.
End BannedWordList.

(** [chatModerationSettings.emoteLimit]; [max] may be missing. *)
Module EmoteLimit.
Record t := mk { enabled : bool; max : option Z }.
End EmoteLimit.

(** [chatModerationSettings.urlModeration.viewTime], with a threshold
    that is present and a whole number of hours. *)
Module ViewTime.
Record t := mk { enabled : bool; viewTimeInHours : Z }.
End ViewTime.

(** [chatModerationSettings.urlModeration] *)
Module UrlModeration.
Record t := mk {
  enabled : bool;
  viewTime : option ViewTime.t;
  outputMessage : option jsString
}.
End UrlModeration.

(** The settings object.  A flag [enabled] that is missing reads as
    [false]; an object that is missing is [None]. *)
Record ModerationSettings := {
  bannedWordList : option BannedWordList.t;
  emoteLimit : option EmoteLimit.t;
  urlModeration : option UrlModeration.t;
  exemptRoles : option (list RoleId)
}.

Definition defaultEmoteLimit : EmoteLimit.t :=
  EmoteLimit.mk false (Some 10%Z).

Definition defaultUrlModeration : UrlModeration.t :=
  UrlModeration.mk false (Some (ViewTime.mk false 0%Z)) (Some []).

(** The initial value of [chatModerationSettings]. *)
Definition defaultSettings : ModerationSettings := {|
  bannedWordList := Some (BannedWordList.mk false);
  emoteLimit := Some defaultEmoteLimit;
  urlModeration := Some defaultUrlModeration;
  exemptRoles := Some []
|}.

Record BannedWordEntry := { text : jsString }.

(** The banned-words document [{ words: [...] }]. *)
Record BannedWords := { words : option (list BannedWordEntry) }.

(** A part of a chat message; [text] may be missing. *)
Module Part.
Record t := mk { type : jsString; text : option jsString }.
End Part.

Record ChatMessage := {
  id : jsString;
  username : jsString;
  rawText : jsString;
  roles : list RoleId;
  parts : list Part.t
}.

(** A record of the viewer database. *)
Record Viewer := { minutesInChannel : Z }.

(** Messages posted to the worker. *)
Inductive WorkerMessage :=
| bannedWordsUpdate (words : list jsString)
| moderateMessageTask (message messageId : jsString) (scanForBannedWords : bool).

(** Events the worker posts back. *)
Inductive WorkerEvent :=
| deleteMessageEvent (messageId : option jsString)
| otherEvent.

(** A worker thread, named by the order of its creation. *)
Definition Worker := nat.

(** The calls made to the collaborators. *)
Inductive Effect :=
| deleteMessage (messageId : jsString)
| sendChatMessage (message : jsString)
| newWorker (w : Worker)
| postMessage (w : Worker) (m : WorkerMessage)
| terminate (w : Worker)
| unref (w : Worker)
| registerPermitCommand
| pushSettings (settings : ModerationSettings)
| pushBannedWords (bw : BannedWords).

Inductive Error := TypeError | DatabaseError.

(** The module-level variables of the source, the number of workers
    created so far and the calls made so far (oldest first). *)
Record State := {
  chatModerationSettings : ModerationSettings;
  bannedWords : BannedWords;
  moderationService : option Worker;
  spawned : nat;
  effects : list Effect
}.

Definition initialState : State := {|
  chatModerationSettings := defaultSettings;
  bannedWords := {| words := Some [] |};
  moderationService := None;
  spawned := 0;
  effects := []
|}.

(* ------------------------------------------------------------------ *)
(** ** Computations: state that survives an exception *)

Inductive Result (A : Type) :=
| Ok (a : A)
| Throw (e : Error).
Arguments Ok {A} a.
Arguments Throw {A} e.

Definition M (A : Type) := State -> Result A * State.

Definition ret {A} (a : A) : M A := fun st => (Ok a, st).

Definition bind {A B} (m : M A) (k : A -> M B) : M B :=
  fun st =>
    match m st with
    | (Ok a, st') => k a st'
    | (Throw e, st') => (Throw e, st')
    end.

Definition throw {A} (e : Error) : M A := fun st => (Throw e, st).

(** [try { m } catch (error) { }]: the handlers of the source only log. *)
Definition tryCatch (m : M unit) : M unit :=
  fun st => (Ok tt, snd (m st)).

Definition gets {A} (f : State -> A) : M A := fun st => (Ok (f st), st).

Definition modify (f : State -> State) : M unit := fun st => (Ok tt, f st).

Declare Scope js_scope.
Delimit Scope js_scope with js_m.
Notation "x <- m ;; k" := (bind m (fun x => k))
  (at level 100, m at next level, right associativity) : js_scope.
Notation "m ;; k" := (bind m (fun _ => k))
  (at level 100, right associativity) : js_scope.
Open Scope js_scope.

(** Reading a property of [o]: [TypeError] when [o] is missing. *)
Definition deref {A} (o : option A) : M A :=
  match o with
  | Some a => ret a
  | None => throw TypeError
  end.

Definition call (e : Effect) : M unit :=
  modify (fun st => {|
    chatModerationSettings := chatModerationSettings st;
    bannedWords := bannedWords st;
    moderationService := moderationService st;
    spawned := spawned st;
    effects := effects st ++ [e]
  |}).

Definition setModerationService (w : option Worker) : M unit :=
  modify (fun st => {|
    chatModerationSettings := chatModerationSettings st;
    bannedWords := bannedWords st;
    moderationService := w;
    spawned := spawned st;
    effects := effects st
  |}).

Definition setSettings (s : ModerationSettings) : M unit :=
  modify (fun st => {|
    chatModerationSettings := s;
    bannedWords := bannedWords st;
    moderationService := moderationService st;
    spawned := spawned st;
    effects := effects st
  |}).

Definition setBannedWords (bw : BannedWords) : M unit :=
  modify (fun st => {|
    chatModerationSettings := chatModerationSettings st;
    bannedWords := bw;
    moderationService := moderationService st;
    spawned := spawned st;
    effects := effects st
  |}).

(* ------------------------------------------------------------------ *)
(** ** Collaborators *)

(** The modules the manager requires and what it uses of the engine:
    [rolesManager.userIsInRole], [permitCommand.hasTemporaryPermission],
    the value the promise of [viewerDB.getUserByUsername] resolves to
    ([None] for [null]), the code points with the Unicode property
    [Extended_Pictographic], [String.prototype.toLowerCase] with its
    Unicode case mapping, and [Number.prototype.toString], which prints
    a safe integer as its decimal numeral (from 10^21 on it prints an
    exponent). *)
Class Collaborators := {
  userIsInRole : jsString -> list RoleId -> option (list RoleId) -> bool;
  hasTemporaryPermission : jsString -> bool;
  getUserByUsername : jsString -> option Viewer;
  Extended_Pictographic : N -> bool;
  toLowerCase : jsString -> jsString;
  numberToString : Z -> jsString;
  numberToString_safe :
    forall z, isSafeInteger z = true -> numberToString z = JsString.decimal z
}.

(** A JSON object read from storage: the keys the manager knows, and
    the number of its other keys, that is the keys the manager does not
    know and the known keys whose value is [null]. *)
Record Document (A : Type) := { content : A; otherKeys : nat }.

(** What a read of a JSON document yields: an exception, a falsy value
    or an object. *)
Definition DbRead (A : Type) := Result (option (Document A)).

Section Manager.

Context {collaborators : Collaborators}.

(** *** Worker supervisor *)

Definition getBannedWordsList : M (list jsString) :=
  bw <- gets bannedWords ;;
  match words bw with
  | None => ret []
  | Some ws => ret (map text ws)
  end.

(** The ["message"] handler of the worker. *)
Definition onWorkerMessage (event : option WorkerEvent) : M unit :=
  match event with
  | None => ret tt
  | Some (deleteMessageEvent (Some messageId)) =>
      if JsString.truthy messageId then call (deleteMessage messageId)
      else ret tt
  | Some _ => ret tt
  end.

(** The ["error"] handler of the worker; the restart is commented out
    in the source. *)
Definition onWorkerError : M unit :=
  svc <- gets moderationService ;;
  w <- deref svc ;;
  call (unref w) ;;
  setModerationService None.

Definition startModerationService : M unit :=
  svc <- gets moderationService ;;
  match svc with
  | Some _ => ret tt
  | None =>
      n <- gets spawned ;;
      modify (fun st => {|
        chatModerationSettings := chatModerationSettings st;
        bannedWords := bannedWords st;
        moderationService := Some n;
        spawned := S n;
        effects := effects st ++ [newWorker n]
      |}) ;;
      svc' <- gets moderationService ;;
      w <- deref svc' ;;
      ws <- getBannedWordsList ;;
      call (postMessage w (bannedWordsUpdate ws))
  end.

Definition stopService : M unit :=
  svc <- gets moderationService ;;
  match svc with
  | Some w =>
      call (terminate w) ;;
      call (unref w) ;;
      setModerationService None
  | None => ret tt
  end.

(** *** Dispatcher *)

(** [((str || '').match(re) || []).length] for
    [re = /\p{Extended_Pictographic}/ug]. *)
Definition countEmojis (str : option jsString) : nat :=
  let s := match str with Some s => s | None => [] end in
  length (filter Extended_Pictographic (JsString.codePoints s)).

(** [!!n] for a number that may be missing. *)
Definition truthyNumber (n : option Z) : bool :=
  match n with
  | Some z => negb (z =? 0)%Z
  | None => false
  end.

(** [n > m] where [m] may be missing ([n > undefined] is [false]). *)
Definition greaterThan (n : Z) (m : option Z) : bool :=
  match m with
  | Some z => (z <? n)%Z
  | None => false
  end.

(** [s] or else the empty string. *)
Definition orEmpty (s : option jsString) : jsString :=
  match s with
  | Some s => s
  | None => []
  end.

Definition emoteCount (chatMessage : ChatMessage) : nat :=
  length (filter (fun p => JsString.eqb (Part.type p) (js "emote"))
                 (parts chatMessage)).

Definition emojiCount (chatMessage : ChatMessage) : nat :=
  fold_left (fun acc part => acc + countEmojis (Part.text part))
            (filter (fun p => JsString.eqb (Part.type p) (js "text"))
                    (parts chatMessage))
            0.

(** How a stage ends: the function goes on, or returns. *)
Inductive Flow := Continue | Return.

(** The guard of lines 113-117, with the short-circuit of [&&]. *)
Definition allDisabled : M bool :=
  s <- gets chatModerationSettings ;;
  bwl <- deref (bannedWordList s) ;;
  if BannedWordList.enabled bwl then ret false
  else
    el <- deref (emoteLimit s) ;;
    if EmoteLimit.enabled el then ret false
    else
      um <- deref (urlModeration s) ;;
      ret (negb (UrlModeration.enabled um)).

(** Lines 131-140. *)
Definition emoteStage (chatMessage : ChatMessage) : M Flow :=
  s <- gets chatModerationSettings ;;
  el <- deref (emoteLimit s) ;;
  if EmoteLimit.enabled el && truthyNumber (EmoteLimit.max el) then
    if greaterThan (Z.of_nat (emoteCount chatMessage + emojiCount chatMessage))
                   (EmoteLimit.max el)
    then call (deleteMessage (id chatMessage)) ;; ret Return
    else ret Continue
  else ret Continue.

(** Lines 155-169: [None] when the function returns, otherwise the
    output message to go on with. *)
Definition viewTimeCheck (settings : UrlModeration.t)
    (chatMessage : ChatMessage) (outputMessage : jsString)
    : M (option jsString) :=
  match UrlModeration.viewTime settings with
  | Some vt =>
      if ViewTime.enabled vt then
        viewer <- deref (getUserByUsername (username chatMessage)) ;;
        let viewerViewTime := (minutesInChannel viewer # 60)%Q in
        let minimumViewTime := ViewTime.viewTimeInHours vt in
        if Qle_bool (inject_Z minimumViewTime) viewerViewTime then ret None
        else ret (Some (JsString.replace outputMessage (js "{viewTime}")
                                         (numberToString minimumViewTime)))
      else ret (Some outputMessage)
  | None => ret (Some outputMessage)
  end.

(** Lines 142-177. *)
Definition urlStage (chatMessage : ChatMessage) : M Flow :=
  s <- gets chatModerationSettings ;;
  um <- deref (urlModeration s) ;;
  if UrlModeration.enabled um then
    if hasTemporaryPermission (username chatMessage) then ret Return
    else
      let message := rawText chatMessage in
      if negb (JsString.urlTest message) then ret Return
      else
        let outputMessage := orEmpty (UrlModeration.outputMessage um) in
        checked <- viewTimeCheck um chatMessage outputMessage ;;
        match checked with
        | None => ret Return
        | Some outputMessage =>
            call (deleteMessage (id chatMessage)) ;;
            (if JsString.truthy outputMessage then
               call (sendChatMessage
                       (JsString.replace outputMessage (js "{userName}")
                                         (username chatMessage)))
             else ret tt) ;;
            ret Continue
        end
  else ret Continue.

(** Lines 179-189: the task has [maxEmotes: null] always. *)
Definition forwardToWorker (chatMessage : ChatMessage) : M unit :=
  let message := rawText chatMessage in
  let messageId := id chatMessage in
  svc <- gets moderationService ;;
  w <- deref svc ;;
  s <- gets chatModerationSettings ;;
  bwl <- deref (bannedWordList s) ;;
  call (postMessage w (moderateMessageTask message messageId
                                           (BannedWordList.enabled bwl))).

Definition moderateMessage (chatMessage : option ChatMessage) : M unit :=
  match chatMessage with
  | None => ret tt
  | Some chatMessage =>
      off <- allDisabled ;;
      if off then ret tt
      else
        s <- gets chatModerationSettings ;;
        let userExempt :=
          userIsInRole (username chatMessage) (roles chatMessage)
                       (exemptRoles s) in
        let moderateMessage := negb userExempt in
        if moderateMessage then
          emote <- emoteStage chatMessage ;;
          match emote with
          | Return => ret tt
          | Continue =>
              url <- urlStage chatMessage ;;
              match url with
              | Return => ret tt
              | Continue => forwardToWorker chatMessage
              end
          end
        else ret tt
  end.

(** *** Policy store *)

(** The handler of [chatMessageSettingsUpdate]. *)
Definition chatMessageSettingsUpdate (settings : ModerationSettings) : M unit :=
  setSettings settings ;;
  tryCatch (call (pushSettings settings)).

Definition saveBannedWordList : M unit :=
  tryCatch (bw <- gets bannedWords ;; call (pushBannedWords bw)) ;;
  svc <- gets moderationService ;;
  match svc with
  | Some w =>
      ws <- getBannedWordsList ;;
      call (postMessage w (bannedWordsUpdate ws))
  | None => ret tt
  end.

(** The handler of [addBannedWords]. *)
Definition addBannedWords (newWords : list BannedWordEntry) : M unit :=
  bw <- gets bannedWords ;;
  ws <- deref (words bw) ;;
  setBannedWords {| words := Some (ws ++ newWords) |} ;;
  saveBannedWordList.

(** The handler of [removeBannedWord]. *)
Definition removeBannedWord (wordText : jsString) : M unit :=
  bw <- gets bannedWords ;;
  ws <- deref (words bw) ;;
  setBannedWords {| words := Some
    (filter (fun w => negb (JsString.eqb (toLowerCase (text w)) wordText))
            ws) |} ;;
  saveBannedWordList.

(** The handler of [removeAllBannedWords]. *)
Definition removeAllBannedWords : M unit :=
  setBannedWords {| words := Some [] |} ;;
  saveBannedWordList.

(** The handler of [getChatModerationData]. *)
Definition getChatModerationData
    : M (ModerationSettings * option (list BannedWordEntry)) :=
  s <- gets chatModerationSettings ;;
  bw <- gets bannedWords ;;
  ret (s, words bw).

(** [getData("/")] on a document read beforehand. *)
Definition getData {A} (doc : DbRead A) : M (option (Document A)) :=
  match doc with
  | Ok v => ret v
  | Throw e => throw e
  end.

(** What a key adds to the count of [Object.keys]. *)
Definition key {A} (o : option A) : nat :=
  match o with
  | Some _ => 1
  | None => 0
  end.

(** The number of keys of a settings object among the four the manager
    knows. *)
Definition knownKeys (s : ModerationSettings) : nat :=
  key (bannedWordList s) + key (emoteLimit s)
  + key (urlModeration s) + key (exemptRoles s).

(** [Object.keys(settings).length > 0] *)
Definition hasKeys (settings : Document ModerationSettings) : bool :=
  0 <? knownKeys (content settings) + otherKeys settings.

(** [Object.keys(words).length > 0] *)
Definition hasWordsKey (ws : Document BannedWords) : bool :=
  0 <? key (words (content ws)) + otherKeys ws.

(** Lines 249-251, on the object [chatModerationSettings] refers to. *)
Definition backfillExemptRoles (s : ModerationSettings) : ModerationSettings :=
  match exemptRoles s with
  | Some _ => s
  | None => {|
      bannedWordList := bannedWordList s;
      emoteLimit := emoteLimit s;
      urlModeration := urlModeration s;
      exemptRoles := Some []
    |}
  end.

(** Lines 252-254. *)
Definition backfillEmoteLimit (s : ModerationSettings) : ModerationSettings :=
  match emoteLimit s with
  | Some _ => s
  | None => {|
      bannedWordList := bannedWordList s;
      emoteLimit := Some (EmoteLimit.mk false (Some 10%Z));
      urlModeration := urlModeration s;
      exemptRoles := exemptRoles s
    |}
  end.

(** Lines 256-265. *)
Definition backfillUrlModeration (s : ModerationSettings) : ModerationSettings :=
  match urlModeration s with
  | Some _ => s
  | None => {|
      bannedWordList := bannedWordList s;
      emoteLimit := emoteLimit s;
      urlModeration :=
        Some (UrlModeration.mk false (Some (ViewTime.mk false 0%Z)) (Some []));
      exemptRoles := exemptRoles s
    |}
  end.

(** A mutation of the object [chatModerationSettings] refers to. *)
Definition mutateSettings (f : ModerationSettings -> ModerationSettings) : M unit :=
  s <- gets chatModerationSettings ;;
  setSettings (f s).

(** Lines 246-270. *)
Definition loadSettings (settingsDoc : DbRead ModerationSettings) : M unit :=
  settings <- getData settingsDoc ;;
  match settings with
  | Some settings =>
      if hasKeys settings then
        setSettings (content settings) ;;
        mutateSettings backfillExemptRoles ;;
        mutateSettings backfillEmoteLimit ;;
        mutateSettings backfillUrlModeration ;;
        s <- gets chatModerationSettings ;;
        um <- deref (urlModeration s) ;;
        if UrlModeration.enabled um then call registerPermitCommand
        else ret tt
      else ret tt
  | None => ret tt
  end.

(** Lines 272-275. *)
Definition loadBannedWords (wordsDoc : DbRead BannedWords) : M unit :=
  ws <- getData wordsDoc ;;
  match ws with
  | Some ws => if hasWordsKey ws then setBannedWords (content ws) else ret tt
  | None => ret tt
  end.

(** [load], given what the two documents read as. *)
Definition load (settingsDoc : DbRead ModerationSettings)
    (wordsDoc : DbRead BannedWords) : M unit :=
  tryCatch (loadSettings settingsDoc ;; loadBannedWords wordsDoc) ;;
  startModerationService.

End Manager.

(* ------------------------------------------------------------------ *)
(** ** Vocabulary of the properties *)

(** The state after the calls [es] have been made, nothing else changed. *)
Definition emit (es : list Effect) (st : State) : State := {|
  chatModerationSettings := chatModerationSettings st;
  bannedWords := bannedWords st;
  moderationService := moderationService st;
  spawned := spawned st;
  effects := effects st ++ es
|}.

(** The condition under which the emote-limit stage deletes. *)
Definition emoteLimitExceeded {collaborators : Collaborators}
    (el : EmoteLimit.t) (chatMessage : ChatMessage) : bool :=
  EmoteLimit.enabled el
  && truthyNumber (EmoteLimit.max el)
  && greaterThan (Z.of_nat (emoteCount chatMessage + emojiCount chatMessage))
                 (EmoteLimit.max el).

(** What [moderateMessage] does once the guard and the exemption check
    let the message through. *)
Definition stages {collaborators : Collaborators} (chatMessage : ChatMessage)
    : M unit :=
  emote <- emoteStage chatMessage ;;
  match emote with
  | Return => ret tt
  | Continue =>
      url <- urlStage chatMessage ;;
      match url with
      | Return => ret tt
      | Continue => forwardToWorker chatMessage
      end
  end.

(** The task [moderateMessage] posts for a message. *)
Definition taskFor (chatMessage : ChatMessage) (bwl : BannedWordList.t)
    : WorkerMessage :=
  moderateMessageTask (rawText chatMessage) (id chatMessage)
                      (BannedWordList.enabled bwl).

(** The warning sent after a deletion for lack of view time, for a
    threshold that is a safe integer: nothing when no template is
    configured. *)
Definition viewTimeWarning (um : UrlModeration.t) (vt : ViewTime.t)
    (chatMessage : ChatMessage) : list Effect :=
  let template := orEmpty (UrlModeration.outputMessage um) in
  if JsString.truthy template then
    [sendChatMessage
       (JsString.replace
          (JsString.replace template (js "{viewTime}")
                            (JsString.decimal (ViewTime.viewTimeInHours vt)))
          (js "{userName}") (username chatMessage))]
  else [].

(** Equality of two strings ignoring case. *)
Definition equalsIgnoreCase {collaborators : Collaborators}
    (a b : jsString) : bool :=
  JsString.eqb (toLowerCase a) (toLowerCase b).

(** Settings all of whose sub-objects and nested fields are present. *)
Definition wellFormed (s : ModerationSettings) : bool :=
  match bannedWordList s, emoteLimit s, urlModeration s, exemptRoles s with
  | Some _, Some el, Some um, Some _ =>
      match EmoteLimit.max el, UrlModeration.viewTime um,
            UrlModeration.outputMessage um with
      | Some _, Some _, Some _ => true
      | _, _, _ => false
      end
  | _, _, _, _ => false
  end.

Definition isTask (e : Effect) : bool :=
  match e with
  | postMessage _ (moderateMessageTask _ _ _) => true
  | _ => false
  end.

Definition isDelete (e : Effect) : bool :=
  match e with
  | deleteMessage _ => true
  | _ => false
  end.

Definition isSend (e : Effect) : bool :=
  match e with
  | sendChatMessage _ => true
  | _ => false
  end.

Definition isNewWorker (e : Effect) : bool :=
  match e with
  | newWorker _ => true
  | _ => false
  end.

(** How many of the calls satisfy [p]. *)
Definition count (p : Effect -> bool) (es : list Effect) : nat :=
  length (filter p es).

(* ------------------------------------------------------------------ *)
(** ** Sample collaborators and inputs *)

Module Sample.

(** Lower-casing of the letters A-Z, the other code units left as they
    are: what the engine does on a text of ASCII characters. *)
Definition lowerAscii (s : jsString) : jsString :=
  map (fun c => if (65 <=? c)%N && (c <=? 90)%N then (c + 32)%N else c) s.

(** A role resolver by membership, nobody permitted, one known viewer
    with two hours in the channel, a small table of pictographs (the
    emoticons U+1F600..U+1F64F and the copyright sign), and an engine
    that agrees with the real one on ASCII texts and on safe integers. *)
Definition collaborators : Collaborators := {|
  userIsInRole := fun _ userRoles candidates =>
    match candidates with
    | Some cs => existsb (fun r => existsb (JsString.eqb r) cs) userRoles
    | None => false
    end;
  hasTemporaryPermission := fun _ => false;
  getUserByUsername := fun name =>
    if JsString.eqb name (js "alice") then Some {| minutesInChannel := 120 |}
    else None;
  Extended_Pictographic := fun c =>
    (128512 <=? c)%N && (c <=? 128591)%N || (c =? 169)%N;
  toLowerCase := lowerAscii;
  numberToString := JsString.decimal;
  numberToString_safe := fun z _ => eq_refl
|}.

Definition settings (words emotes urls : bool) : ModerationSettings := {|
  bannedWordList := Some (BannedWordList.mk words);
  emoteLimit := Some (EmoteLimit.mk emotes (Some 2%Z));
  urlModeration :=
    Some (UrlModeration.mk urls (Some (ViewTime.mk true 5%Z))
                           (Some (js "Need {viewTime}h, {userName}")));
  exemptRoles := Some [js "mod"]
|}.

(** The manager after a settings update and [start()]. *)
Definition running (s : ModerationSettings) : State :=
  snd ((chatMessageSettingsUpdate s ;; startModerationService) initialState).

(** The same after the worker reported an error. *)
Definition faulted (s : ModerationSettings) : State :=
  snd (onWorkerError (running s)).

Definition emote : Part.t := Part.mk (js "emote") (Some (js "Kappa")).

Definition message (name : string) (userRoles : list RoleId)
    (body : string) (ps : list Part.t) : ChatMessage := {|
  id := js "m1";
  username := js name;
  rawText := js body;
  roles := userRoles;
  parts := ps
|}.

(** alice posts a link. *)
Definition link : ChatMessage :=
  message "alice" [] "see ab.cd" [Part.mk (js "text") (Some (js "see ab.cd"))].

(** bob, unknown to the viewer database, posts a link. *)
Definition strangerLink : ChatMessage :=
  message "bob" [] "see ab.cd" [Part.mk (js "text") (Some (js "see ab.cd"))].

(** A moderator posts a link. *)
Definition modLink : ChatMessage :=
  message "carol" [js "mod"] "see ab.cd" [Part.mk (js "text") (Some (js "see ab.cd"))].

(** alice posts plain text. *)
Definition plain : ChatMessage :=
  message "alice" [] "hello" [Part.mk (js "text") (Some (js "hello"))].

(** The code units of U+1F600, a surrogate pair. *)
Definition grinning : jsString := [55357; 56832]%N.

(** alice posts two emotes and an emoji. *)
Definition flood : ChatMessage := {|
  id := js "m1";
  username := js "alice";
  rawText := js "Kappa Kappa " ++ grinning;
  roles := [];
  parts := [emote; emote; Part.mk (js "text") (Some (js " " ++ grinning))]
|}.

(** alice posts three emotes and a link. *)
Definition floodLink : ChatMessage :=
  message "alice" [] "Kappa Kappa Kappa ab.cd"
          [emote; emote; emote; Part.mk (js "text") (Some (js " ab.cd"))].

(** A settings document with no [bannedWordList], no [max], no
    [viewTime] and no [outputMessage]. *)
Definition sparseDocument : Document ModerationSettings := {|
  content := {|
    bannedWordList := None;
    emoteLimit := Some (EmoteLimit.mk true None);
    urlModeration := Some (UrlModeration.mk false None None);
    exemptRoles := None
  |};
  otherKeys := 0
|}.

End Sample.

(* ------------------------------------------------------------------ *)
(** ** The message-actions popover

    The controller of the [hints] directive of
    [src/gui/app/directives/misc/hints.js].  The popover element is a
    record of what the controller sets on it; [leaked] counts the
    popover elements still in the document that the controller has lost
    its reference to. *)

Module Hints.

(** [$scope.message], as far as the controller reads it. *)
Record Message := {
  id : jsString;
  user_name : jsString;
  user_roles : list jsString
}.

(** [connectionService.accounts]: the user names of the streamer and of
    the bot, missing when the account is not set. *)
Record Accounts := {
  streamer : option jsString;
  bot : option jsString
}.

Record Action := { name : jsString; icon : jsString }.

(** A popover element: its [display], [top] and [left] styles and
    whether it is in the document. *)
Record Element := {
  display : jsString;
  top : option jsString;
  left : option jsString;
  attached : bool
}.

(** An argument of [$scope.onActionSelected]. *)
Record Selection := {
  actionName : jsString;
  userName : jsString;
  msgId : jsString
}.

(** The variables of the controller: [vm.isVisible], [popover], and the
    calls of [onActionSelected] so far. *)
Record State := {
  isVisible : bool;
  popover : Element;
  leaked : nat;
  selected : list Selection
}.

(** [a !== b] where [b] may be missing. *)
Definition differs (a : jsString) (b : option jsString) : bool :=
  match b with
  | Some b => negb (JsString.eqb a b)
  | None => true
  end.

(** [roles.includes(role)] *)
Definition includes (roles : list jsString) (role : jsString) : bool :=
  existsb (JsString.eqb role) roles.

Definition getActions (accounts : Accounts) (message : Message) : list Action :=
  let actions := [ {| name := js "Delete"; icon := js "fa-trash-alt" |} ] in
  if differs (user_name message) (streamer accounts)
     && differs (user_name message) (bot accounts)
  then
    let actions := actions ++ [ {| name := js "Whisper"; icon := js "fa-envelope" |} ] in
    let actions :=
      if includes (user_roles message) (js "Mod")
      then actions ++ [ {| name := js "Unmod"; icon := js "fa-user-times" |} ]
      else actions ++ [ {| name := js "Mod"; icon := js "fa-user-plus" |} ] in
    let actions := actions ++ [ {| name := js "Timeout"; icon := js "fa-clock" |} ] in
    actions ++ [ {| name := js "Ban"; icon := js "fa-ban" |} ]
  else actions.

(** [shouldOpen], fixed when the controller is created. *)
Definition shouldOpen (message : Message) : bool :=
  negb (JsString.eqb (id message) (js "System")).

(** [evaluateOuterScopeValue(scopeName, defaultValue)]: the value of the
    attribute in the outer scope when the attribute is defined. *)
Definition evaluateOuterScopeValue {A} (scopeName : option A) (defaultValue : A) : A :=
  match scopeName with
  | Some v => v
  | None => defaultValue
  end.

(** [loadPopover]: a new element, hidden and outside the document,
    takes the place of the one the controller had. *)
Definition loadPopover (st : State) : State := {|
  isVisible := isVisible st;
  popover := {| display := js "none"; top := None; left := None; attached := false |};
  leaked := if attached (popover st) then S (leaked st) else leaked st;
  selected := selected st
|}.

Definition setPopover (e : Element) (st : State) : State := {|
  isVisible := isVisible st;
  popover := e;
  leaked := leaked st;
  selected := selected st
|}.

Definition setVisible (b : bool) (st : State) : State := {|
  isVisible := b;
  popover := popover st;
  leaked := leaked st;
  selected := selected st
|}.

(** [popover.css('display', d)] *)
Definition cssDisplay (d : jsString) (e : Element) : Element := {|
  display := d; top := top e; left := left e; attached := attached e
|}.

(** [$document.find('body').append(popover)] and [popover.remove()] *)
Definition setAttached (b : bool) (e : Element) : Element := {|
  display := display e; top := top e; left := left e; attached := b
|}.

(** [positionPopover], given the [top] and the [left] that
    [$uibPosition.positionElements] returns, each as the engine prints
    it when [+= 'px'] turns it into a string. *)
Definition positionPopover (position : jsString * jsString) (e : Element)
    : Element := {|
  display := display e;
  top := Some (fst position ++ js "px");
  left := Some (snd position ++ js "px");
  attached := attached e
|}.

(** The state once the controller has run. *)
Definition init : State :=
  loadPopover {|
    isVisible := false;
    popover := {| display := []; top := None; left := None; attached := false |};
    leaked := 0;
    selected := []
  |}.

(** [showPopover], given the value of the [is-disabled] attribute, if
    there is one, and the position computed for the popover. *)
Definition showPopover (message : Message) (isDisabled : option bool)
    (position : jsString * jsString) (st : State) : State :=
  if shouldOpen message && negb (isVisible st)
     && negb (evaluateOuterScopeValue isDisabled false)
  then
    let st := loadPopover st in
    let st := setPopover (setAttached true (popover st)) st in
    let st := setPopover (cssDisplay (js "block") (popover st)) st in
    let st := setPopover (positionPopover position (popover st)) st in
    setVisible true st
  else st.

Definition hidePopover (st : State) : State :=
  if isVisible st then
    let st := setPopover (cssDisplay (js "none") (popover st)) st in
    let st := setPopover (setAttached false (popover st)) st in
    setVisible false st
  else st.

Definition actionClicked (message : Message) (actionName : jsString)
    (st : State) : State :=
  hidePopover {|
    isVisible := isVisible st;
    popover := popover st;
    leaked := leaked st;
    selected := selected st ++ [ {| actionName := actionName;
                                    userName := user_name message;
                                    msgId := id message |} ]
  |}.

Definition togglePopover (message : Message) (isDisabled : option bool)
    (position : jsString * jsString) (st : State) : State :=
  if negb (isVisible st) then showPopover message isDisabled position st
  else hidePopover st.

(** [documentClick], given whether the popover and the element of the
    directive contain the target of the click. *)
Definition documentClick (inPopover inElement : bool) (st : State) : State :=
  if isVisible st && negb inPopover && negb inElement then hidePopover st
  else st.

(** What can happen to the directive: a click on its element, a click
    anywhere in the document, the choice of an action, and the calls of
    [vm.showPopover] and [vm.hidePopover]. *)
Inductive Event :=
| elementClick (isDisabled : option bool) (position : jsString * jsString)
| documentClicked (inPopover inElement : bool)
| actionChosen (actionName : jsString)
| showCalled (isDisabled : option bool) (position : jsString * jsString)
| hideCalled.

Definition step (message : Message) (st : State) (e : Event) : State :=
  match e with
  | elementClick d p => togglePopover message d p st
  | documentClicked a b => documentClick a b st
  | actionChosen n => actionClicked message n st
  | showCalled d p => showPopover message d p st
  | hideCalled => hidePopover st
  end.

(** The state after a sequence of events, from the creation of the
    controller. *)
Definition run (message : Message) (events : list Event) : State :=
  fold_left (step message) events init.

(** The popover is shown exactly when [vm.isVisible] says so, and no
    element is left behind. *)
Definition consistent (st : State) : Prop :=
  attached (popover st) = isVisible st
  /\ JsString.eqb (display (popover st)) (js "block") = isVisible st
  /\ leaked st = 0.

End Hints.

(* ------------------------------------------------------------------ *)
(** ** More vocabulary *)

(** The state with other banned words, nothing else changed. *)
Definition withWords (ws : list BannedWordEntry) (st : State) : State := {|
  chatModerationSettings := chatModerationSettings st;
  bannedWords := {| words := Some ws |};
  moderationService := moderationService st;
  spawned := spawned st;
  effects := effects st
|}.

(** The state with other settings, nothing else changed. *)
Definition withSettings (s : ModerationSettings) (st : State) : State := {|
  chatModerationSettings := s;
  bannedWords := bannedWords st;
  moderationService := moderationService st;
  spawned := spawned st;
  effects := effects st
|}.

(** The flattened word list, as [getBannedWordsList] returns it. *)
Definition flatWords (bw : BannedWords) : list jsString :=
  match words bw with
  | None => []
  | Some ws => map text ws
  end.

(** The calls of [saveBannedWordList]: the write, and the update of the
    worker if one is running. *)
Definition saveCalls (st : State) : list Effect :=
  pushBannedWords (bannedWords st)
  :: match moderationService st with
     | Some w => [postMessage w (bannedWordsUpdate (flatWords (bannedWords st)))]
     | None => []
     end.

(** The sequences of calls one run of [moderateMessage] can make for a
    message: at most a deletion of that message, a warning only after a
    deletion, and at most one task, last. *)
Definition dispatchTrace (chatMessage : ChatMessage) (es : list Effect) : bool :=
  let own e :=
    match e with
    | deleteMessage i => JsString.eqb i (id chatMessage)
    | _ => false
    end in
  let task e :=
    match e with
    | postMessage _ (moderateMessageTask m i _) =>
        JsString.eqb m (rawText chatMessage) && JsString.eqb i (id chatMessage)
    | _ => false
    end in
  match es with
  | [] => true
  | [e] => own e || task e
  | [d; e] => own d && (isSend e || task e)
  | [d; s; t] => own d && isSend s && task t
  | _ => false
  end.

(** The window of five code units the URL pattern looks for. *)
Definition urlWindow (a b c d e : JsString.unit16) : Prop :=
  JsString.isWord a = true /\ JsString.isWord b = true /\ c = 46%N
  /\ JsString.isWord d = true /\ JsString.isWord e = true.

(** [pat] occurs in [s] at offset [k]. *)
Definition occursAt (pat s : jsString) (k : nat) : Prop :=
  JsString.startsWith pat (skipn k s) = true.

(** The three handlers that change the word list. *)
Inductive StoreEvent :=
| addWords (newWords : list BannedWordEntry)
| removeWord (wordText : jsString)
| removeAllWords.

Definition handle {collaborators : Collaborators} (e : StoreEvent) : M unit :=
  match e with
  | addWords ws => addBannedWords ws
  | removeWord q => removeBannedWord q
  | removeAllWords => removeAllBannedWords
  end.

(** The settings document for which [load] registers the permit
    command: a non-empty object with URL moderation enabled. *)
Definition permitDue (settingsDoc : DbRead ModerationSettings) : bool :=
  match settingsDoc with
  | Ok (Some s) =>
      hasKeys s
      && match urlModeration (content s) with
         | Some um => UrlModeration.enabled um
         | None => false
         end
  | _ => false
  end.

(** The banned words [load] ends with: the document read, if the
    settings were read without an exception and the document is a
    non-empty object. *)
Definition loadedWords (settingsDoc : DbRead ModerationSettings)
    (wordsDoc : DbRead BannedWords) (before : BannedWords) : BannedWords :=
  match settingsDoc, wordsDoc with
  | Ok _, Ok (Some w) => if hasWordsKey w then content w else before
  | _, _ => before
  end.

(** The settings [load] ends with: the document read with its three
    fields filled in, if it is a non-empty object. *)
Definition loadedSettings (settingsDoc : DbRead ModerationSettings)
    (before : ModerationSettings) : ModerationSettings :=
  match settingsDoc with
  | Ok (Some s) =>
      if hasKeys s
      then backfillUrlModeration
             (backfillEmoteLimit (backfillExemptRoles (content s)))
      else before
  | _ => before
  end.

(** The state [load] has reached when it starts the worker. *)
Definition loadedState (settingsDoc : DbRead ModerationSettings)
    (wordsDoc : DbRead BannedWords) (st : State) : State := {|
  chatModerationSettings := loadedSettings settingsDoc (chatModerationSettings st);
  bannedWords := loadedWords settingsDoc wordsDoc (bannedWords st);
  moderationService := moderationService st;
  spawned := spawned st;
  effects := effects st
             ++ if permitDue settingsDoc then [registerPermitCommand] else []
|}.

(* ------------------------------------------------------------------ *)
(** ** More sample inputs *)

Module MoreSample.

(** Banned words on, an emote limit of [max], URL moderation on with
    the given view-time gate and template. *)
Definition urlSettings (max : option Z) (gate : option ViewTime.t)
    (template : option jsString) : ModerationSettings := {|
  bannedWordList := Some (BannedWordList.mk true);
  emoteLimit := Some (EmoteLimit.mk true max);
  urlModeration := Some (UrlModeration.mk true gate template);
  exemptRoles := Some [js "mod"]
|}.

(** An emote limit of 0 and nothing else. *)
Definition zeroLimit : ModerationSettings := {|
  bannedWordList := Some (BannedWordList.mk false);
  emoteLimit := Some (EmoteLimit.mk true (Some 0%Z));
  urlModeration := Some (UrlModeration.mk false None None);
  exemptRoles := Some []
|}.

(** A state whose banned-words object has no [words]. *)
Definition noWords : State := {|
  chatModerationSettings := defaultSettings;
  bannedWords := {| words := None |};
  moderationService := None;
  spawned := 0;
  effects := []
|}.

(** The settings document [{exemptRoles: null}]. *)
Definition nullRolesDocument : Document ModerationSettings := {|
  content := {|
    bannedWordList := None;
    emoteLimit := None;
    urlModeration := None;
    exemptRoles := None
  |};
  otherKeys := 1
|}.

(** The banned-words document [{words: null}]. *)
Definition nullWordsDocument : Document BannedWords := {|
  content := {| words := None |};
  otherKeys := 1
|}.

Definition foo : BannedWordEntry := {| text := js "Foo" |}.
Definition bar : BannedWordEntry := {| text := js "bar" |}.

(** A running manager with two banned words. *)
Definition twoWords : State :=
  snd ((startModerationService ;; addBannedWords [foo; bar]) initialState).

Definition accounts : Hints.Accounts := {|
  Hints.streamer := Some (js "streamer");
  Hints.bot := Some (js "firebot")
|}.

Definition viewerMessage : Hints.Message := {|
  Hints.id := js "m1";
  Hints.user_name := js "alice";
  Hints.user_roles := [js "Mod"]
|}.

Definition streamerMessage : Hints.Message := {|
  Hints.id := js "m2";
  Hints.user_name := js "streamer";
  Hints.user_roles := [js "Streamer"]
|}.

Definition systemMessage : Hints.Message := {|
  Hints.id := js "System";
  Hints.user_name := js "System";
  Hints.user_roles := []
|}.

End MoreSample.

(* ------------------------------------------------------------------ *)
(** ** Properties *)

Unset Implicit Arguments.

Section Properties.

Context {collaborators : Collaborators}.

Lemma emit_nil st : emit [] st = st.
Proof. destruct st; unfold emit; cbn. now rewrite app_nil_r. Qed.

Lemma emit_emit es1 es2 st : emit es2 (emit es1 st) = emit (es1 ++ es2) st.
Proof. unfold emit; cbn. now rewrite app_assoc. Qed.

Lemma call_emit e st : call e st = (Ok tt, emit [e] st).
Proof. reflexivity. Qed.

(** Running a computation whose first step is known. *)
Lemma bind_ok {A B} (m : M A) (k : A -> M B) st a st' :
  m st = (Ok a, st') -> bind m k st = k a st'.
Proof. intros E. unfold bind. now rewrite E. Qed.

Lemma bind_throw {A B} (m : M A) (k : A -> M B) st e st' :
  m st = (Throw e, st') -> bind m k st = (Throw e, st').
Proof. intros E. unfold bind. now rewrite E. Qed.

(** The guard reads the three flags, left to right. *)
Lemma allDisabled_wellFormed st bwl el um :
  bannedWordList (chatModerationSettings st) = Some bwl ->
  emoteLimit (chatModerationSettings st) = Some el ->
  urlModeration (chatModerationSettings st) = Some um ->
  allDisabled st
  = (Ok (negb (BannedWordList.enabled bwl) && negb (EmoteLimit.enabled el)
         && negb (UrlModeration.enabled um)), st).
Proof.
  intros Hb He Hu. unfold allDisabled, bind, gets, deref; cbn.
  rewrite Hb; cbn. destruct (BannedWordList.enabled bwl); cbn; [reflexivity|].
  rewrite He; cbn. destruct (EmoteLimit.enabled el); cbn; [reflexivity|].
  rewrite Hu; cbn. reflexivity.
Qed.

(** The emote-limit stage deletes and returns exactly when the limit is
    exceeded. *)
Lemma emoteStage_run st el chatMessage :
  emoteLimit (chatModerationSettings st) = Some el ->
  emoteStage chatMessage st
  = if emoteLimitExceeded el chatMessage
    then (Ok Return, emit [deleteMessage (id chatMessage)] st)
    else (Ok Continue, st).
Proof.
  intros He. unfold emoteStage, emoteLimitExceeded, bind, gets, deref; cbn.
  rewrite He; cbn.
  destruct (EmoteLimit.enabled el && truthyNumber (EmoteLimit.max el)); cbn;
    [|reflexivity].
  destruct (greaterThan _ _); reflexivity.
Qed.

Lemma moderateMessage_run st chatMessage bwl el um :
  bannedWordList (chatModerationSettings st) = Some bwl ->
  emoteLimit (chatModerationSettings st) = Some el ->
  urlModeration (chatModerationSettings st) = Some um ->
  moderateMessage (Some chatMessage) st
  = if negb (BannedWordList.enabled bwl) && negb (EmoteLimit.enabled el)
       && negb (UrlModeration.enabled um)
    then (Ok tt, st)
    else if userIsInRole (username chatMessage) (roles chatMessage)
                         (exemptRoles (chatModerationSettings st))
         then (Ok tt, st)
         else stages chatMessage st.
Proof.
  intros Hb He Hu. unfold moderateMessage.
  rewrite (bind_ok _ _ _ _ _ (allDisabled_wellFormed _ _ _ _ Hb He Hu)).
  destruct (_ && _); [reflexivity|].
  unfold bind at 1, gets; cbn.
  destruct (userIsInRole _ _ _); reflexivity.
Qed.

(** *** Strings *)

Lemma splitFirst_nonempty pat s pre post :
  pat <> [] -> JsString.splitFirst pat s = Some (pre, post) -> s <> [].
Proof.
  intros Hp E ->. destruct pat as [|p pat]; [congruence|]. cbn in E. discriminate.
Qed.

(** The decimal form of an integer is not empty and does not start
    with a dollar sign. *)
Lemma decimal_head z :
  exists c r, JsString.decimal z = c :: r /\ (c =? 36)%N = false.
Proof.
  unfold JsString.decimal.
  destruct (Z.to_int z) as [d|d]; destruct d; cbn; eauto.
Qed.

Lemma getSubstitution_head matched pre post c r :
  (c =? 36)%N = false ->
  JsString.getSubstitution matched pre post (c :: r)
  = c :: JsString.getSubstitution matched pre post r.
Proof. intros E. cbn. now rewrite E. Qed.

(** Substituting a number turns no template into the empty string and
    no empty string into a template. *)
Lemma truthy_replace_number s pat z :
  pat <> [] ->
  JsString.truthy (JsString.replace s pat (JsString.decimal z))
  = JsString.truthy s.
Proof.
  intros Hp. unfold JsString.replace.
  destruct (JsString.splitFirst pat s) as [[pre post]|] eqn:E; [|reflexivity].
  pose proof (splitFirst_nonempty _ _ _ _ Hp E) as Hs.
  destruct (decimal_head z) as (c & r & -> & Hc).
  rewrite (getSubstitution_head _ _ _ _ _ Hc).
  destruct s; [congruence|]. destruct pre; reflexivity.
Qed.

(** A replacement is plain when it has no dollar sign. *)
Lemma getSubstitution_plain matched pre post r :
  Forall (fun c => c <> 36%N) r ->
  JsString.getSubstitution matched pre post r = r.
Proof.
  induction 1 as [|c r Hc _ IH]; [reflexivity|].
  cbn [JsString.getSubstitution].
  destruct (N.eqb_spec c 36); [contradiction|]. now rewrite IH.
Qed.

Lemma startsWith_sound pat s :
  JsString.startsWith pat s = true -> s = pat ++ skipn (length pat) s.
Proof.
  revert s. induction pat as [|p pat IH]; intros s E; [reflexivity|].
  destruct s as [|c s]; [discriminate|]. cbn in E.
  apply andb_prop in E as [Ec Es]. apply N.eqb_eq in Ec. subst c.
  cbn. f_equal. now apply IH.
Qed.

Lemma splitFirst_sound pat s pre post :
  JsString.splitFirst pat s = Some (pre, post) -> s = pre ++ pat ++ post.
Proof.
  revert pre post. induction s as [|c s IH]; intros pre post E.
  - cbn in E. destruct (JsString.startsWith pat []) eqn:Es; [|discriminate].
    injection E as <- <-. now apply startsWith_sound.
  - cbn [JsString.splitFirst] in E.
    destruct (JsString.startsWith pat (c :: s)) eqn:Es.
    + injection E as <- <-. now apply startsWith_sound.
    + destruct (JsString.splitFirst pat s) as [[pre' post']|]; [|discriminate].
      injection E as <- <-. cbn. f_equal. now apply IH.
Qed.

(** With a plain replacement, [replace] puts the replacement in the
    place of the first occurrence of the pattern. *)
Lemma replace_plain s pat r pre post :
  JsString.splitFirst pat s = Some (pre, post) ->
  Forall (fun c => c <> 36%N) r ->
  s = pre ++ pat ++ post /\ JsString.replace s pat r = pre ++ r ++ post.
Proof.
  intros E Hr. split; [now apply splitFirst_sound|].
  unfold JsString.replace. rewrite E. now rewrite getSubstitution_plain.
Qed.

Lemma lit_uint_plain d :
  Forall (fun c => c <> 36%N) (JsString.lit (NilEmpty.string_of_uint d)).
Proof.
  induction d; cbn; constructor; try assumption; discriminate.
Qed.

(** The decimal form of an integer is plain. *)
Lemma decimal_plain z : Forall (fun c => c <> 36%N) (JsString.decimal z).
Proof.
  unfold JsString.decimal.
  assert (Hu : forall d, Forall (fun c => c <> 36%N)
                                (JsString.lit (NilZero.string_of_uint d))).
  { intros d. destruct d; try apply lit_uint_plain.
    cbn. constructor; [discriminate | constructor]. }
  destruct (Z.to_int z) as [d|d]; cbn; [apply Hu|].
  constructor; [discriminate | apply Hu].
Qed.

(** *** The URL stage *)

Lemma viewTimeCheck_below um vt viewer chatMessage out st :
  UrlModeration.viewTime um = Some vt ->
  ViewTime.enabled vt = true ->
  getUserByUsername (username chatMessage) = Some viewer ->
  (minutesInChannel viewer # 60 < inject_Z (ViewTime.viewTimeInHours vt))%Q ->
  isSafeInteger (ViewTime.viewTimeInHours vt) = true ->
  viewTimeCheck um chatMessage out st
  = (Ok (Some (JsString.replace out (js "{viewTime}")
                 (JsString.decimal (ViewTime.viewTimeInHours vt)))), st).
Proof.
  intros Hvt Hen Hv Hlt Hsafe. unfold viewTimeCheck. rewrite Hvt, Hen.
  unfold bind, deref. rewrite Hv; cbn.
  rewrite (numberToString_safe _ Hsafe).
  destruct (Qle_bool _ _) eqn:E; [|reflexivity].
  apply Qle_bool_iff in E. exfalso. exact (Qlt_not_le _ _ Hlt E).
Qed.

Lemma viewTimeCheck_unknown um vt chatMessage out st :
  UrlModeration.viewTime um = Some vt ->
  ViewTime.enabled vt = true ->
  getUserByUsername (username chatMessage) = None ->
  viewTimeCheck um chatMessage out st = (Throw TypeError, st).
Proof.
  intros Hvt Hen Hv. unfold viewTimeCheck. rewrite Hvt, Hen.
  unfold bind, deref. now rewrite Hv.
Qed.

(** A permit or a text without a link ends the URL stage, and with it
    the function. *)
Lemma urlStage_returns st um chatMessage :
  urlModeration (chatModerationSettings st) = Some um ->
  UrlModeration.enabled um = true ->
  hasTemporaryPermission (username chatMessage) = true
  \/ JsString.urlTest (rawText chatMessage) = false ->
  urlStage chatMessage st = (Ok Return, st).
Proof.
  intros Hu Hen Hor. unfold urlStage, bind, gets, deref; cbn.
  rewrite Hu; cbn. rewrite Hen.
  destruct (hasTemporaryPermission _); [reflexivity|].
  destruct Hor as [Hp|Ht]; [discriminate|]. now rewrite Ht.
Qed.

Lemma urlStage_disabled st um chatMessage :
  urlModeration (chatModerationSettings st) = Some um ->
  UrlModeration.enabled um = false ->
  urlStage chatMessage st = (Ok Continue, st).
Proof.
  intros Hu Hen. unfold urlStage, bind, gets, deref; cbn.
  rewrite Hu; cbn. now rewrite Hen.
Qed.

Lemma urlStage_below st um vt viewer chatMessage :
  urlModeration (chatModerationSettings st) = Some um ->
  UrlModeration.enabled um = true ->
  hasTemporaryPermission (username chatMessage) = false ->
  JsString.urlTest (rawText chatMessage) = true ->
  UrlModeration.viewTime um = Some vt ->
  ViewTime.enabled vt = true ->
  getUserByUsername (username chatMessage) = Some viewer ->
  (minutesInChannel viewer # 60 < inject_Z (ViewTime.viewTimeInHours vt))%Q ->
  isSafeInteger (ViewTime.viewTimeInHours vt) = true ->
  urlStage chatMessage st
  = (Ok Continue,
     emit (deleteMessage (id chatMessage) :: viewTimeWarning um vt chatMessage) st).
Proof.
  intros Hu Hen Hp Ht Hvt Hven Hv Hlt Hsafe.
  unfold urlStage. unfold bind at 1, gets; cbn.
  unfold bind at 1, deref. rewrite Hu; cbn. rewrite Hen, Hp, Ht; cbn.
  rewrite (bind_ok _ _ _ _ _
             (viewTimeCheck_below _ _ _ _ _ _ Hvt Hven Hv Hlt Hsafe)).
  unfold viewTimeWarning.
  rewrite (bind_ok _ _ _ _ _ (call_emit _ _)).
  rewrite truthy_replace_number by discriminate.
  destruct (JsString.truthy _); cbn.
  - unfold ret, emit; cbn. now rewrite <- app_assoc.
  - reflexivity.
Qed.

Lemma forwardToWorker_run st bwl chatMessage :
  bannedWordList (chatModerationSettings st) = Some bwl ->
  forwardToWorker chatMessage st
  = match moderationService st with
    | Some w => (Ok tt, emit [postMessage w (taskFor chatMessage bwl)] st)
    | None => (Throw TypeError, st)
    end.
Proof.
  intros Hb. unfold forwardToWorker, bind, gets, deref; cbn.
  destruct (moderationService st); cbn; [|reflexivity].
  now rewrite Hb.
Qed.

(** *** The dispatcher *)

(** C8.  With the three toggles off, [moderateMessage] returns at once
    for every message (a missing one included): it succeeds and leaves
    the state, and with it the list of calls made, as it was. *)
Theorem all_toggles_off_no_effect (chatMessage : option ChatMessage) st bwl el um :
  bannedWordList (chatModerationSettings st) = Some bwl ->
  emoteLimit (chatModerationSettings st) = Some el ->
  urlModeration (chatModerationSettings st) = Some um ->
  BannedWordList.enabled bwl = false ->
  EmoteLimit.enabled el = false ->
  UrlModeration.enabled um = false ->
  moderateMessage chatMessage st = (Ok tt, st).
Proof.
  intros Hb He Hu Eb Ee Eu. destruct chatMessage as [m|]; [|reflexivity].
  rewrite (moderateMessage_run _ _ _ _ _ Hb He Hu), Eb, Ee, Eu. reflexivity.
Qed.

(** C1, amended.  For a message whose author holds an exempt role,
    [moderateMessage] makes no call at all: no deletion, no chat
    message, and no task posted to the worker either. *)
Theorem exempt_author_no_effect chatMessage st bwl el um :
  bannedWordList (chatModerationSettings st) = Some bwl ->
  emoteLimit (chatModerationSettings st) = Some el ->
  urlModeration (chatModerationSettings st) = Some um ->
  userIsInRole (username chatMessage) (roles chatMessage)
               (exemptRoles (chatModerationSettings st)) = true ->
  moderateMessage (Some chatMessage) st = (Ok tt, st).
Proof.
  intros Hb He Hu Hex.
  rewrite (moderateMessage_run _ _ _ _ _ Hb He Hu), Hex.
  destruct (_ && _); reflexivity.
Qed.

(** C6.  For a message of a non-exempt author, with the emote limit
    enabled and a positive [max], a count of emote parts plus emoji
    above [max] makes [moderateMessage] call [deleteMessage] once and
    nothing else: the URL stage and the post to the worker are
    skipped. *)
Theorem emote_limit_exceeded_one_delete chatMessage st bwl el mx :
  bannedWordList (chatModerationSettings st) = Some bwl ->
  emoteLimit (chatModerationSettings st) = Some el ->
  userIsInRole (username chatMessage) (roles chatMessage)
               (exemptRoles (chatModerationSettings st)) = false ->
  EmoteLimit.enabled el = true ->
  EmoteLimit.max el = Some mx ->
  (0 < mx)%Z ->
  (mx < Z.of_nat (emoteCount chatMessage + emojiCount chatMessage))%Z ->
  moderateMessage (Some chatMessage) st
  = (Ok tt, emit [deleteMessage (id chatMessage)] st).
Proof.
  intros Hb He Hex Een Emx Hpos Hgt.
  assert (Hexc : emoteLimitExceeded el chatMessage = true).
  { unfold emoteLimitExceeded. rewrite Een, Emx; cbn.
    apply andb_true_intro; split.
    - apply negb_true_iff, Z.eqb_neq. lia.
    - now apply Z.ltb_lt. }
  unfold moderateMessage.
  assert (Hoff : allDisabled st = (Ok false, st)).
  { unfold allDisabled, bind, gets, deref; cbn. rewrite Hb; cbn.
    destruct (BannedWordList.enabled bwl); cbn; [reflexivity|].
    rewrite He; cbn. now rewrite Een. }
  rewrite (bind_ok _ _ _ _ _ Hoff).
  unfold bind at 1, gets; cbn. rewrite Hex; cbn.
  unfold bind. rewrite (emoteStage_run _ _ _ He), Hexc. reflexivity.
Qed.

(** C10.  For a message of a non-exempt author, with URL moderation
    enabled, a temporary permit or a text without a link makes
    [moderateMessage] return without posting a task to the worker,
    whatever [bannedWordList.enabled] is: the only call it can have
    made is the deletion of the emote-limit stage. *)
Theorem permit_or_no_link_not_forwarded chatMessage st bwl el um :
  bannedWordList (chatModerationSettings st) = Some bwl ->
  emoteLimit (chatModerationSettings st) = Some el ->
  urlModeration (chatModerationSettings st) = Some um ->
  userIsInRole (username chatMessage) (roles chatMessage)
               (exemptRoles (chatModerationSettings st)) = false ->
  UrlModeration.enabled um = true ->
  hasTemporaryPermission (username chatMessage) = true
  \/ JsString.urlTest (rawText chatMessage) = false ->
  moderateMessage (Some chatMessage) st
  = (Ok tt, if emoteLimitExceeded el chatMessage
            then emit [deleteMessage (id chatMessage)] st
            else st)
  /\ count isTask (effects (snd (moderateMessage (Some chatMessage) st)))
     = count isTask (effects st).
Proof.
  intros Hb He Hu Hex Hen Hor.
  assert (E : moderateMessage (Some chatMessage) st
              = (Ok tt, if emoteLimitExceeded el chatMessage
                        then emit [deleteMessage (id chatMessage)] st
                        else st)).
  { rewrite (moderateMessage_run _ _ _ _ _ Hb He Hu), Hex, Hen.
    rewrite !andb_false_r. unfold stages, bind.
    rewrite (emoteStage_run _ _ _ He).
    destruct (emoteLimitExceeded el chatMessage); [reflexivity|].
    now rewrite (urlStage_returns _ _ _ Hu Hen Hor). }
  split; [exact E|]. rewrite E; cbn.
  destruct (emoteLimitExceeded el chatMessage); [|reflexivity].
  unfold count; cbn. rewrite filter_app, length_app; cbn. lia.
Qed.

(** C7, amended.  For a message of a non-exempt author without a
    permit that the emote-limit stage lets through, whose text
    contains a link, with URL moderation and view-time gating enabled,
    a threshold and minutes in the channel that are safe integers, and
    a viewer whose hours are below the threshold, the calls
    [moderateMessage] makes are: one [deleteMessage]; then, if a
    template is configured, one [sendChatMessage] of the template with
    [{viewTime}] replaced by the decimal numeral of the threshold and
    [{userName}] by the name of the author; then the task, if a worker
    is running. *)
Theorem link_below_view_time chatMessage st bwl el um vt viewer :
  bannedWordList (chatModerationSettings st) = Some bwl ->
  emoteLimit (chatModerationSettings st) = Some el ->
  urlModeration (chatModerationSettings st) = Some um ->
  userIsInRole (username chatMessage) (roles chatMessage)
               (exemptRoles (chatModerationSettings st)) = false ->
  emoteLimitExceeded el chatMessage = false ->
  UrlModeration.enabled um = true ->
  hasTemporaryPermission (username chatMessage) = false ->
  JsString.urlTest (rawText chatMessage) = true ->
  UrlModeration.viewTime um = Some vt ->
  ViewTime.enabled vt = true ->
  getUserByUsername (username chatMessage) = Some viewer ->
  isSafeInteger (minutesInChannel viewer) = true ->
  isSafeInteger (ViewTime.viewTimeInHours vt) = true ->
  (minutesInChannel viewer # 60 < inject_Z (ViewTime.viewTimeInHours vt))%Q ->
  effects (snd (moderateMessage (Some chatMessage) st))
  = effects st
    ++ deleteMessage (id chatMessage)
    :: viewTimeWarning um vt chatMessage
    ++ match moderationService st with
       | Some w => [postMessage w (taskFor chatMessage bwl)]
       | None => []
       end.
Proof.
  intros Hb He Hu Hex Hemo Hen Hp Ht Hvt Hven Hv _ Hsafe Hlt.
  rewrite (moderateMessage_run _ _ _ _ _ Hb He Hu), Hex, Hen.
  rewrite !andb_false_r. unfold stages, bind.
  rewrite (emoteStage_run _ _ _ He), Hemo.
  rewrite (urlStage_below _ _ _ _ _ Hu Hen Hp Ht Hvt Hven Hv Hlt Hsafe).
  rewrite (forwardToWorker_run _ bwl) by exact Hb.
  cbn. destruct (moderationService st); cbn.
  - now rewrite <- app_assoc.
  - now rewrite app_nil_r.
Qed.

(** Without a worker, a message that reaches the last step makes
    [moderateMessage] throw. *)
Lemma moderateMessage_without_worker chatMessage st bwl el um :
  bannedWordList (chatModerationSettings st) = Some bwl ->
  emoteLimit (chatModerationSettings st) = Some el ->
  urlModeration (chatModerationSettings st) = Some um ->
  BannedWordList.enabled bwl = true ->
  userIsInRole (username chatMessage) (roles chatMessage)
               (exemptRoles (chatModerationSettings st)) = false ->
  emoteLimitExceeded el chatMessage = false ->
  UrlModeration.enabled um = false ->
  moderationService st = None ->
  moderateMessage (Some chatMessage) st = (Throw TypeError, st).
Proof.
  intros Hb He Hu Eb Hex Hemo Eu Hw.
  rewrite (moderateMessage_run _ _ _ _ _ Hb He Hu), Eb, Hex. cbn.
  unfold stages, bind. rewrite (emoteStage_run _ _ _ He), Hemo.
  rewrite (urlStage_disabled _ _ _ Hu Eu).
  rewrite (forwardToWorker_run _ bwl) by exact Hb. now rewrite Hw.
Qed.

(** A link of a user unknown to the viewer database, under view-time
    gating, makes [moderateMessage] throw. *)
Lemma moderateMessage_unknown_viewer chatMessage st bwl el um vt :
  bannedWordList (chatModerationSettings st) = Some bwl ->
  emoteLimit (chatModerationSettings st) = Some el ->
  urlModeration (chatModerationSettings st) = Some um ->
  userIsInRole (username chatMessage) (roles chatMessage)
               (exemptRoles (chatModerationSettings st)) = false ->
  emoteLimitExceeded el chatMessage = false ->
  UrlModeration.enabled um = true ->
  hasTemporaryPermission (username chatMessage) = false ->
  JsString.urlTest (rawText chatMessage) = true ->
  UrlModeration.viewTime um = Some vt ->
  ViewTime.enabled vt = true ->
  getUserByUsername (username chatMessage) = None ->
  moderateMessage (Some chatMessage) st = (Throw TypeError, st).
Proof.
  intros Hb He Hu Hex Hemo Hen Hp Ht Hvt Hven Hv.
  rewrite (moderateMessage_run _ _ _ _ _ Hb He Hu), Hex, Hen.
  rewrite !andb_false_r. unfold stages, bind.
  rewrite (emoteStage_run _ _ _ He), Hemo.
  unfold urlStage, bind, gets, deref; cbn. rewrite Hu; cbn.
  rewrite Hen, Hp, Ht; cbn.
  now rewrite (viewTimeCheck_unknown _ _ _ _ _ Hvt Hven Hv).
Qed.

(** *** The supervisor *)

Lemma startModerationService_running st :
  exists w st',
    startModerationService st = (Ok tt, st') /\ moderationService st' = Some w.
Proof.
  unfold startModerationService, bind, gets; cbn.
  destruct (moderationService st) as [w|] eqn:E.
  - exists w, st. now split.
  - unfold getBannedWordsList, bind, gets; cbn.
    destruct (words (bannedWords st)); cbn;
      do 2 eexists; split; reflexivity.
Qed.

Lemma startModerationService_spawns st :
  count isNewWorker (effects (snd (startModerationService st)))
  <= S (count isNewWorker (effects st)).
Proof.
  unfold startModerationService, bind, gets; cbn.
  destruct (moderationService st); cbn; [lia|].
  unfold getBannedWordsList, bind, gets; cbn.
  destruct (words (bannedWords st)); cbn;
    unfold count; rewrite !filter_app, !length_app; cbn; lia.
Qed.

Lemma stopService_stopped st :
  exists st', stopService st = (Ok tt, st') /\ moderationService st' = None.
Proof.
  unfold stopService, bind, gets; cbn.
  destruct (moderationService st) eqn:E; cbn;
    eexists; split; try reflexivity; assumption.
Qed.

(** C9.  [start()] with a worker running changes nothing, so that a
    second [start()] in a row spawns no second worker; [stop()] with no
    worker running changes nothing, so that a second [stop()] in a row
    does nothing. *)
Theorem lifecycle_idempotent st :
  (moderationService st <> None -> startModerationService st = (Ok tt, st))
  /\ (startModerationService ;; startModerationService) st
     = startModerationService st
  /\ count isNewWorker
       (effects (snd ((startModerationService ;; startModerationService) st)))
     <= S (count isNewWorker (effects st))
  /\ (moderationService st = None -> stopService st = (Ok tt, st))
  /\ (stopService ;; stopService) st = stopService st.
Proof.
  assert (Hstart : forall s, moderationService s <> None ->
                             startModerationService s = (Ok tt, s)).
  { intros s Hs. unfold startModerationService, bind, gets; cbn.
    destruct (moderationService s); [reflexivity | congruence]. }
  assert (Hstop : forall s, moderationService s = None ->
                            stopService s = (Ok tt, s)).
  { intros s Hs. unfold stopService, bind, gets; cbn. now rewrite Hs. }
  assert (Htwice : (startModerationService ;; startModerationService) st
                   = startModerationService st).
  { destruct (startModerationService_running st) as (w & st' & E & Hw).
    rewrite (bind_ok _ _ _ _ _ E), E. apply Hstart. congruence. }
  repeat split.
  - apply Hstart.
  - exact Htwice.
  - rewrite Htwice. apply startModerationService_spawns.
  - apply Hstop.
  - destruct (stopService_stopped st) as (st' & E & Hw).
    rewrite (bind_ok _ _ _ _ _ E), E. now apply Hstop.
Qed.

(** *** The policy store *)

Lemma saveBannedWordList_run st :
  exists es, saveBannedWordList st = (Ok tt, emit es st).
Proof.
  destruct st as [s bw [w|] n es0];
    unfold saveBannedWordList, bind, tryCatch, gets; cbn.
  - unfold getBannedWordsList, bind, gets; cbn.
    destruct (words bw); cbn;
      eexists; unfold emit, call, modify; cbn; rewrite <- app_assoc; reflexivity.
  - eexists. reflexivity.
Qed.

(** What the handler keeps: the entries whose lower-cased text differs
    from the query as it was given. *)
Lemma removeBannedWord_run st ws wordText :
  words (bannedWords st) = Some ws ->
  fst (removeBannedWord wordText st) = Ok tt
  /\ words (bannedWords (snd (removeBannedWord wordText st)))
     = Some (filter (fun w => negb (JsString.eqb (toLowerCase (text w))
                                                  wordText)) ws).
Proof.
  intros Hw. destruct st as [s [w0] [w|] n es0]; cbn in Hw; subst w0;
    unfold removeBannedWord, saveBannedWordList, getBannedWordsList, bind,
      tryCatch, gets, deref, setBannedWords, modify, call, ret; cbn;
    split; reflexivity.
Qed.

(** C4, amended.  For a query that is its own lower-case form,
    [removeBannedWord] removes exactly the entries whose text equals
    the query ignoring case, and keeps the others in their order. *)
Theorem removeBannedWord_lower_case_query st ws wordText :
  words (bannedWords st) = Some ws ->
  toLowerCase wordText = wordText ->
  fst (removeBannedWord wordText st) = Ok tt
  /\ words (bannedWords (snd (removeBannedWord wordText st)))
     = Some (filter (fun w => negb (equalsIgnoreCase (text w) wordText)) ws).
Proof.
  intros Hw Hq. destruct (removeBannedWord_run st ws wordText Hw) as [E1 E2].
  split; [exact E1|]. rewrite E2. f_equal. apply filter_ext.
  intros w. unfold equalsIgnoreCase. now rewrite Hq.
Qed.

Lemma startModerationService_settings st :
  chatModerationSettings (snd (startModerationService st))
  = chatModerationSettings st.
Proof.
  unfold startModerationService, bind, gets; cbn.
  destruct (moderationService st); cbn; [reflexivity|].
  unfold getBannedWordsList, bind, gets; cbn.
  destruct (words (bannedWords st)); reflexivity.
Qed.

Lemma loadBannedWords_settings wordsDoc st :
  chatModerationSettings (snd (loadBannedWords wordsDoc st))
  = chatModerationSettings st.
Proof.
  destruct wordsDoc as [[ws|]|e];
    unfold loadBannedWords, bind, getData, ret, throw; try reflexivity.
  destruct (hasWordsKey ws); reflexivity.
Qed.

Lemma load_settings settingsDoc wordsDoc st :
  chatModerationSettings (snd (load settingsDoc wordsDoc st))
  = chatModerationSettings (snd (loadSettings settingsDoc st)).
Proof.
  unfold load, bind at 1, tryCatch. cbv beta iota.
  rewrite startModerationService_settings.
  unfold bind. destruct (loadSettings settingsDoc st) as [[[]|e] st'] eqn:E; cbn.
  - apply loadBannedWords_settings.
  - reflexivity.
Qed.

Lemma load_returns settingsDoc wordsDoc st :
  fst (load settingsDoc wordsDoc st) = Ok tt.
Proof.
  unfold load, bind at 1, tryCatch. cbv beta iota.
  match goal with |- fst (startModerationService ?s) = _ =>
    destruct (startModerationService_running s) as (w & st' & E & _) end.
  now rewrite E.
Qed.

(** C5, amended.  [load()] returns, whatever the documents read as.
    When the persisted settings are an object with at least one key,
    whatever the key and its value, the settings in memory then have an
    [emoteLimit], a [urlModeration] and an [exemptRoles]: the persisted
    one or, when it is missing or [null], the default (not enabled and a
    maximum of 10; not enabled, view time not enabled with 0 hours and
    an empty output message; no role).  Otherwise the settings in memory
    are left as they were. *)
Theorem load_backfills_top_level settingsDoc wordsDoc st :
  let loaded := chatModerationSettings (snd (load settingsDoc wordsDoc st)) in
  fst (load settingsDoc wordsDoc st) = Ok tt /\
  match settingsDoc with
  | Ok (Some s) =>
      if hasKeys s then
        emoteLimit loaded
        = Some (match emoteLimit (content s) with
                | Some el => el
                | None => EmoteLimit.mk false (Some 10%Z)
                end)
        /\ urlModeration loaded
           = Some (match urlModeration (content s) with
                   | Some um => um
                   | None => UrlModeration.mk false (Some (ViewTime.mk false 0%Z))
                                              (Some [])
                   end)
        /\ exemptRoles loaded
           = Some (match exemptRoles (content s) with
                   | Some rs => rs
                   | None => []
                   end)
      else loaded = chatModerationSettings st
  | _ => loaded = chatModerationSettings st
  end.
Proof.
  cbv zeta. split; [apply load_returns|]. rewrite load_settings.
  destruct settingsDoc as [[d|]|e]; try reflexivity.
  unfold loadSettings, getData.
  rewrite (bind_ok (ret (Some d)) _ st (Some d) st eq_refl).
  destruct (hasKeys d); [|reflexivity].
  destruct d as [[b el um rs] k]; cbn.
  destruct el, um as [[[|] vt om]|], rs; cbn; repeat split; reflexivity.
Qed.

End Properties.

(* ------------------------------------------------------------------ *)
(** ** The properties on the sample inputs *)

Module OnSamples.

Import Sample.

#[local] Existing Instance Sample.collaborators.

(** All toggles off: the link of alice goes through untouched. *)
Lemma all_toggles_off_sample :
  moderateMessage (Some link) (running (settings false false false))
  = (Ok tt, running (settings false false false)).
Proof.
  eapply all_toggles_off_no_effect; reflexivity.
Defined.

(** The link of a moderator goes through untouched. *)
Lemma exempt_author_sample :
  moderateMessage (Some modLink) (running (settings true true true))
  = (Ok tt, running (settings true true true)).
Proof.
  eapply exempt_author_no_effect; reflexivity.
Defined.

(** C1 fails as stated: the author holds an exempt role, the
    banned-word toggle is on and a worker is running, and yet no task
    is posted. *)
Lemma exempt_author_not_forwarded :
  let st := running (settings true true true) in
  userIsInRole (username modLink) (roles modLink)
               (exemptRoles (chatModerationSettings st)) = true
  /\ bannedWordList (chatModerationSettings st) = Some (BannedWordList.mk true)
  /\ moderationService st = Some 0
  /\ count isTask (effects (snd (moderateMessage (Some modLink) st))) = 0.
Proof. repeat split. Qed.

(** Two emotes and an emoji against a maximum of two: one deletion,
    nothing else. *)
Lemma emote_limit_sample :
  moderateMessage (Some flood) (running (settings true true true))
  = (Ok tt, emit [deleteMessage (js "m1")] (running (settings true true true))).
Proof.
  eapply (emote_limit_exceeded_one_delete flood); reflexivity.
Defined.

(** A text without a link is not forwarded. *)
Lemma no_link_sample :
  moderateMessage (Some plain) (running (settings true true true))
  = (Ok tt, running (settings true true true))
  /\ count isTask (effects (snd (moderateMessage (Some plain)
                                   (running (settings true true true)))))
     = count isTask (effects (running (settings true true true))).
Proof.
  exact (permit_or_no_link_not_forwarded plain (running (settings true true true))
           (BannedWordList.mk true) (EmoteLimit.mk true (Some 2%Z))
           (UrlModeration.mk true (Some (ViewTime.mk true 5%Z))
                             (Some (js "Need {viewTime}h, {userName}")))
           eq_refl eq_refl eq_refl eq_refl eq_refl (or_intror eq_refl)).
Defined.

(** The template ["Need {viewTime}h, {userName}"] with a threshold of
    5 hours, for alice who has 2: the message is deleted, the warning
    reads ["Need 5h, alice"], and the task is posted. *)
Lemma link_below_view_time_sample :
  effects (snd (moderateMessage (Some link) (running (settings true true true))))
  = effects (running (settings true true true))
    ++ [deleteMessage (js "m1");
        sendChatMessage (js "Need 5h, alice");
        postMessage 0 (moderateMessageTask (js "see ab.cd") (js "m1") true)].
Proof.
  exact (link_below_view_time link (running (settings true true true))
           (BannedWordList.mk true) (EmoteLimit.mk true (Some 2%Z))
           (UrlModeration.mk true (Some (ViewTime.mk true 5%Z))
                             (Some (js "Need {viewTime}h, {userName}")))
           (ViewTime.mk true 5%Z) {| minutesInChannel := 120 |}
           eq_refl eq_refl eq_refl eq_refl eq_refl eq_refl eq_refl eq_refl
           eq_refl eq_refl eq_refl eq_refl eq_refl eq_refl).
Defined.

(** C7 fails as stated: the author is neither exempt nor permitted,
    the text contains a link, URL moderation and view-time gating are
    on, the viewer is below the threshold and a template is
    configured; the emote limit is exceeded as well, and no chat
    message is sent. *)
Lemma link_with_emote_flood_no_warning :
  let st := running (settings true true true) in
  userIsInRole (username floodLink) (roles floodLink)
               (exemptRoles (chatModerationSettings st)) = false
  /\ hasTemporaryPermission (username floodLink) = false
  /\ JsString.urlTest (rawText floodLink) = true
  /\ urlModeration (chatModerationSettings st)
     = Some (UrlModeration.mk true (Some (ViewTime.mk true 5%Z))
                              (Some (js "Need {viewTime}h, {userName}")))
  /\ getUserByUsername (username floodLink) = Some {| minutesInChannel := 120 |}
  /\ count isDelete (effects (snd (moderateMessage (Some floodLink) st))) = 1
  /\ count isSend (effects (snd (moderateMessage (Some floodLink) st))) = 0.
Proof. repeat split. Qed.

(** C2: the code at the failing input.  After a worker fault no worker
    is running; with the banned-word toggle on, [moderateMessage]
    on a plain message of alice throws a [TypeError] where the claim
    has it complete. *)
Theorem forward_after_fault_throws :
  let st := faulted (settings true false false) in
  moderationService st = None
  /\ moderateMessage (Some plain) st = (Throw TypeError, st).
Proof. split; reflexivity. Qed.

(** C3: the code at the failing input.  With URL moderation and
    view-time gating on, a link posted by a user the viewer database
    does not know makes [moderateMessage] throw a [TypeError]. *)
Theorem unknown_viewer_throws :
  let st := running (settings false false true) in
  getUserByUsername (username strangerLink) = None
  /\ moderateMessage (Some strangerLink) st = (Throw TypeError, st).
Proof. split; reflexivity. Qed.

(** A second [start()] and a [stop()] without a worker. *)
Lemma lifecycle_sample :
  startModerationService (running (settings true true true))
  = (Ok tt, running (settings true true true))
  /\ stopService initialState = (Ok tt, initialState).
Proof.
  split.
  - apply (proj1 (lifecycle_idempotent (running (settings true true true)))).
    discriminate.
  - exact (proj1 (proj2 (proj2 (proj2 (lifecycle_idempotent initialState))))
                 eq_refl).
Defined.

(** Adding ["Foo"] then removing ["foo"] leaves no word. *)
Lemma remove_Foo_by_foo :
  let st := snd (addBannedWords [ {| text := js "Foo" |} ] initialState) in
  fst (removeBannedWord (js "foo") st) = Ok tt
  /\ words (bannedWords (snd (removeBannedWord (js "foo") st))) = Some [].
Proof.
  exact (removeBannedWord_lower_case_query
           (snd (addBannedWords [ {| text := js "Foo" |} ] initialState))
           [ {| text := js "Foo" |} ] (js "foo") eq_refl eq_refl).
Defined.

(** C4 fails as stated: adding ["foo"] then removing ["Foo"] leaves
    the word in the list. *)
Lemma remove_foo_by_Foo_keeps_it :
  let st := snd (addBannedWords [ {| text := js "foo" |} ] initialState) in
  equalsIgnoreCase (js "foo") (js "Foo") = true
  /\ words (bannedWords (snd (removeBannedWord (js "Foo") st)))
     = Some [ {| text := js "foo" |} ].
Proof. split; reflexivity. Qed.

(** C5 fails as stated: after loading a document without
    [bannedWordList], [max], [viewTime] and [outputMessage], these are
    still missing from the settings in memory. *)
Lemma load_sparse_document_not_well_formed :
  let loaded :=
    chatModerationSettings
      (snd (load (Ok (Some sparseDocument)) (Ok None) initialState)) in
  wellFormed loaded = false
  /\ bannedWordList loaded = None
  /\ urlModeration loaded = Some (UrlModeration.mk false None None)
  /\ emoteLimit loaded = Some (EmoteLimit.mk true None).
Proof. repeat split. Qed.

End OnSamples.

(* ------------------------------------------------------------------ *)
(** ** Further properties of the manager *)

Section MoreProperties.

Context {collaborators : Collaborators}.

Lemma eqb_refl (a : jsString) : JsString.eqb a a = true.
Proof. unfold JsString.eqb. destruct (list_eq_dec N.eq_dec a a); congruence. Qed.

Lemma eqb_eq (a b : jsString) : JsString.eqb a b = true <-> a = b.
Proof.
  unfold JsString.eqb. destruct (list_eq_dec N.eq_dec a b); split; congruence.
Qed.

(** *** The dispatcher *)

Lemma viewTimeCheck_met um vt viewer chatMessage out st :
  UrlModeration.viewTime um = Some vt ->
  ViewTime.enabled vt = true ->
  getUserByUsername (username chatMessage) = Some viewer ->
  (inject_Z (ViewTime.viewTimeInHours vt) <= minutesInChannel viewer # 60)%Q ->
  viewTimeCheck um chatMessage out st = (Ok None, st).
Proof.
  intros Hvt Hen Hv Hle. unfold viewTimeCheck. rewrite Hvt, Hen.
  unfold bind, deref. rewrite Hv; cbn.
  apply Qle_bool_iff in Hle. now rewrite Hle.
Qed.

Lemma viewTimeCheck_ungated um chatMessage out st :
  UrlModeration.viewTime um = None
  \/ (exists vt, UrlModeration.viewTime um = Some vt /\ ViewTime.enabled vt = false) ->
  viewTimeCheck um chatMessage out st = (Ok (Some out), st).
Proof.
  intros [Hn | (vt & Hvt & Hen)]; unfold viewTimeCheck.
  - now rewrite Hn.
  - now rewrite Hvt, Hen.
Qed.

(** X1.  A link of a viewer whose hours meet the threshold: the
    function returns with nothing done, no task posted either. *)
Theorem link_view_time_met_no_effect chatMessage st bwl el um vt viewer :
  bannedWordList (chatModerationSettings st) = Some bwl ->
  emoteLimit (chatModerationSettings st) = Some el ->
  urlModeration (chatModerationSettings st) = Some um ->
  userIsInRole (username chatMessage) (roles chatMessage)
               (exemptRoles (chatModerationSettings st)) = false ->
  emoteLimitExceeded el chatMessage = false ->
  UrlModeration.enabled um = true ->
  hasTemporaryPermission (username chatMessage) = false ->
  JsString.urlTest (rawText chatMessage) = true ->
  UrlModeration.viewTime um = Some vt ->
  ViewTime.enabled vt = true ->
  getUserByUsername (username chatMessage) = Some viewer ->
  (inject_Z (ViewTime.viewTimeInHours vt) <= minutesInChannel viewer # 60)%Q ->
  moderateMessage (Some chatMessage) st = (Ok tt, st).
Proof.
  intros Hb He Hu Hex Hemo Hen Hp Ht Hvt Hven Hv Hle.
  rewrite (moderateMessage_run _ _ _ _ _ Hb He Hu), Hex, Hen.
  rewrite !andb_false_r. unfold stages, bind.
  rewrite (emoteStage_run _ _ _ He), Hemo.
  unfold urlStage, bind, gets, deref; cbn. rewrite Hu; cbn.
  rewrite Hen, Hp, Ht; cbn.
  now rewrite (viewTimeCheck_met _ _ _ _ _ _ Hvt Hven Hv Hle).
Qed.

(** X2.  A link while view-time gating is off or not configured: the
    message is deleted whoever the viewer is, the template, if there is
    one, is sent with [{userName}] replaced and [{viewTime}] left as it
    is, and the task is posted if a worker is running. *)
Theorem link_without_view_time_gate chatMessage st bwl el um :
  bannedWordList (chatModerationSettings st) = Some bwl ->
  emoteLimit (chatModerationSettings st) = Some el ->
  urlModeration (chatModerationSettings st) = Some um ->
  userIsInRole (username chatMessage) (roles chatMessage)
               (exemptRoles (chatModerationSettings st)) = false ->
  emoteLimitExceeded el chatMessage = false ->
  UrlModeration.enabled um = true ->
  hasTemporaryPermission (username chatMessage) = false ->
  JsString.urlTest (rawText chatMessage) = true ->
  UrlModeration.viewTime um = None
  \/ (exists vt, UrlModeration.viewTime um = Some vt /\ ViewTime.enabled vt = false) ->
  effects (snd (moderateMessage (Some chatMessage) st))
  = effects st
    ++ deleteMessage (id chatMessage)
    :: (if JsString.truthy (orEmpty (UrlModeration.outputMessage um))
        then [sendChatMessage
                (JsString.replace (orEmpty (UrlModeration.outputMessage um))
                                  (js "{userName}") (username chatMessage))]
        else [])
    ++ match moderationService st with
       | Some w => [postMessage w (taskFor chatMessage bwl)]
       | None => []
       end.
Proof.
  intros Hb He Hu Hex Hemo Hen Hp Ht Hgate.
  rewrite (moderateMessage_run _ _ _ _ _ Hb He Hu), Hex, Hen.
  rewrite !andb_false_r. unfold stages, bind at 1.
  rewrite (emoteStage_run _ _ _ He), Hemo.
  assert (Eurl : urlStage chatMessage st
                 = (Ok Continue,
                    emit (deleteMessage (id chatMessage)
                          :: (if JsString.truthy (orEmpty (UrlModeration.outputMessage um))
                              then [sendChatMessage
                                      (JsString.replace
                                         (orEmpty (UrlModeration.outputMessage um))
                                         (js "{userName}") (username chatMessage))]
                              else [])) st)).
  { unfold urlStage. unfold bind at 1, gets; cbn.
    unfold bind at 1, deref. rewrite Hu; cbn. rewrite Hen, Hp, Ht; cbn.
    rewrite (bind_ok _ _ _ _ _ (viewTimeCheck_ungated _ _ _ _ Hgate)).
    rewrite (bind_ok _ _ _ _ _ (call_emit _ _)).
    destruct (JsString.truthy _); cbn.
    - unfold ret, emit; cbn. now rewrite <- app_assoc.
    - reflexivity. }
  rewrite (bind_ok _ _ _ _ _ Eurl).
  rewrite (forwardToWorker_run _ bwl) by exact Hb.
  cbn. destruct (moderationService st); cbn.
  - now rewrite <- app_assoc.
  - now rewrite app_nil_r.
Qed.

(** X3.  A message that no stage stops (URL moderation off, emote limit
    not exceeded), with a worker running: one task is posted, carrying
    the text, the id and the banned-word flag, and nothing else
    happens. *)
Theorem clean_message_forwarded chatMessage st bwl el um w :
  bannedWordList (chatModerationSettings st) = Some bwl ->
  emoteLimit (chatModerationSettings st) = Some el ->
  urlModeration (chatModerationSettings st) = Some um ->
  BannedWordList.enabled bwl || EmoteLimit.enabled el = true ->
  userIsInRole (username chatMessage) (roles chatMessage)
               (exemptRoles (chatModerationSettings st)) = false ->
  emoteLimitExceeded el chatMessage = false ->
  UrlModeration.enabled um = false ->
  moderationService st = Some w ->
  moderateMessage (Some chatMessage) st
  = (Ok tt, emit [postMessage w (moderateMessageTask (rawText chatMessage)
                                   (id chatMessage) (BannedWordList.enabled bwl))] st).
Proof.
  intros Hb He Hu Hon Hex Hemo Eu Hw.
  rewrite (moderateMessage_run _ _ _ _ _ Hb He Hu), Hex.
  replace (negb (BannedWordList.enabled bwl) && negb (EmoteLimit.enabled el)
           && negb (UrlModeration.enabled um)) with false.
  2:{ destruct (BannedWordList.enabled bwl), (EmoteLimit.enabled el);
        cbn in *; congruence. }
  unfold stages, bind. rewrite (emoteStage_run _ _ _ He), Hemo.
  rewrite (urlStage_disabled _ _ _ Hu Eu).
  rewrite (forwardToWorker_run _ bwl) by exact Hb. now rewrite Hw.
Qed.

(** X4.  A maximum of 0, or none, switches the emote limit off: with URL
    moderation off and a worker running, a message of a non-exempt
    author is posted to the worker and not deleted, however many emotes
    it has. *)
Theorem emote_limit_zero_never_deletes chatMessage st bwl el um w :
  bannedWordList (chatModerationSettings st) = Some bwl ->
  emoteLimit (chatModerationSettings st) = Some el ->
  urlModeration (chatModerationSettings st) = Some um ->
  EmoteLimit.enabled el = true ->
  EmoteLimit.max el = None \/ EmoteLimit.max el = Some 0%Z ->
  userIsInRole (username chatMessage) (roles chatMessage)
               (exemptRoles (chatModerationSettings st)) = false ->
  UrlModeration.enabled um = false ->
  moderationService st = Some w ->
  moderateMessage (Some chatMessage) st
  = (Ok tt, emit [postMessage w (moderateMessageTask (rawText chatMessage)
                                   (id chatMessage) (BannedWordList.enabled bwl))] st).
Proof.
  intros Hb He Hu Een Hmax Hex Eu Hw.
  assert (Hemo : emoteLimitExceeded el chatMessage = false).
  { unfold emoteLimitExceeded. destruct Hmax as [-> | ->]; cbn;
      now rewrite andb_false_r. }
  rewrite (moderateMessage_run _ _ _ _ _ Hb He Hu), Hex, Een.
  rewrite andb_false_r. cbn.
  unfold stages, bind. rewrite (emoteStage_run _ _ _ He), Hemo.
  rewrite (urlStage_disabled _ _ _ Hu Eu).
  rewrite (forwardToWorker_run _ bwl) by exact Hb. now rewrite Hw.
Qed.

(** X5.  Settings without a [bannedWordList]: on every message
    [moderateMessage] throws a [TypeError] at its first test, before any
    call is made. *)
Theorem missing_bannedWordList_throws chatMessage st :
  bannedWordList (chatModerationSettings st) = None ->
  moderateMessage (Some chatMessage) st = (Throw TypeError, st).
Proof.
  intros Hb. unfold moderateMessage, allDisabled, bind, gets, deref; cbn.
  now rewrite Hb.
Qed.

Lemma allDisabled_frame st : exists r, allDisabled st = (r, st).
Proof.
  unfold allDisabled, bind, gets, deref; cbn.
  destruct (bannedWordList (chatModerationSettings st)) as [bwl|]; cbn;
    [|eexists; reflexivity].
  destruct (BannedWordList.enabled bwl); cbn; [eexists; reflexivity|].
  destruct (emoteLimit (chatModerationSettings st)) as [el|]; cbn;
    [|eexists; reflexivity].
  destruct (EmoteLimit.enabled el); cbn; [eexists; reflexivity|].
  destruct (urlModeration (chatModerationSettings st)); cbn;
    eexists; reflexivity.
Qed.

Lemma emoteStage_shape chatMessage st :
  emoteStage chatMessage st = (Ok Return, emit [deleteMessage (id chatMessage)] st)
  \/ emoteStage chatMessage st = (Ok Continue, st)
  \/ emoteStage chatMessage st = (Throw TypeError, st).
Proof.
  destruct (emoteLimit (chatModerationSettings st)) as [el|] eqn:He.
  - rewrite (emoteStage_run _ _ _ He). destruct (emoteLimitExceeded _ _); auto.
  - right; right. unfold emoteStage, bind, gets, deref; cbn. now rewrite He.
Qed.

Lemma viewTimeCheck_frame um chatMessage out st :
  exists r, viewTimeCheck um chatMessage out st = (r, st).
Proof.
  unfold viewTimeCheck, bind, deref.
  destruct (UrlModeration.viewTime um) as [vt|]; [|eexists; reflexivity].
  destruct (ViewTime.enabled vt); [|eexists; reflexivity].
  destruct (getUserByUsername (username chatMessage)); cbn;
    [|eexists; reflexivity].
  destruct (Qle_bool _ _); eexists; reflexivity.
Qed.

Lemma urlStage_shape chatMessage st :
  exists r es,
    urlStage chatMessage st = (r, emit es st)
    /\ (es = []
        \/ r = Ok Continue
           /\ (es = [deleteMessage (id chatMessage)]
               \/ exists x, es = [deleteMessage (id chatMessage); sendChatMessage x])).
Proof.
  unfold urlStage. unfold bind at 1, gets; cbn. unfold bind at 1, deref.
  destruct (urlModeration (chatModerationSettings st)) as [um|]; cbn;
    [|exists (Throw TypeError), []; rewrite emit_nil; auto].
  destruct (UrlModeration.enabled um);
    [|exists (Ok Continue), []; rewrite emit_nil; auto].
  destruct (hasTemporaryPermission (username chatMessage));
    [exists (Ok Return), []; rewrite emit_nil; auto|].
  destruct (JsString.urlTest (rawText chatMessage)); cbn;
    [|exists (Ok Return), []; rewrite emit_nil; auto].
  destruct (viewTimeCheck_frame um chatMessage
              (orEmpty (UrlModeration.outputMessage um)) st) as [r E].
  destruct r as [[out|]|e].
  - rewrite (bind_ok _ _ _ _ _ E).
    rewrite (bind_ok _ _ _ _ _ (call_emit _ _)).
    destruct (JsString.truthy out); cbn.
    + eexists (Ok Continue), [_; _]. split; [|right; split; eauto].
      unfold ret, emit; cbn. now rewrite <- app_assoc.
    + exists (Ok Continue), [deleteMessage (id chatMessage)]. split; auto.
  - rewrite (bind_ok _ _ _ _ _ E). exists (Ok Return), []. rewrite emit_nil; auto.
  - rewrite (bind_throw _ _ _ _ _ E). exists (Throw e), []. rewrite emit_nil; auto.
Qed.

Lemma forwardToWorker_shape chatMessage st :
  forwardToWorker chatMessage st = (Throw TypeError, st)
  \/ exists w b,
       forwardToWorker chatMessage st
       = (Ok tt, emit [postMessage w (moderateMessageTask (rawText chatMessage)
                                        (id chatMessage) b)] st).
Proof.
  unfold forwardToWorker, bind, gets, deref; cbn.
  destruct (moderationService st) as [w|]; cbn; [|auto].
  destruct (bannedWordList (chatModerationSettings st)) as [bwl|]; cbn; [|auto].
  right. exists w, (BannedWordList.enabled bwl). reflexivity.
Qed.

Lemma stages_trace chatMessage st :
  exists es,
    snd (stages chatMessage st) = emit es st
    /\ dispatchTrace chatMessage es = true.
Proof.
  unfold stages, bind.
  destruct (emoteStage_shape chatMessage st) as [E | [E | E]]; rewrite E.
  - exists [deleteMessage (id chatMessage)]. split; [reflexivity|].
    cbn. now rewrite eqb_refl.
  - destruct (urlStage_shape chatMessage st) as (r & es & Eu & Hes). rewrite Eu.
    destruct Hes as [-> | (-> & Hes)].
    + rewrite emit_nil.
      destruct r as [[]|e]; cbv beta iota.
      * destruct (forwardToWorker_shape chatMessage st) as [F | (w & b & F)];
          rewrite F; cbn.
        -- exists []. split; [now rewrite emit_nil | reflexivity].
        -- eexists [_]. split; [reflexivity|]. cbn. now rewrite !eqb_refl.
      * exists []. split; [now rewrite emit_nil | reflexivity].
      * exists []. split; [now rewrite emit_nil | reflexivity].
    + cbv beta iota.
      destruct (forwardToWorker_shape chatMessage (emit es st))
        as [F | (w & b & F)]; rewrite F; cbn.
      * exists es. split; [reflexivity|].
        destruct Hes as [-> | (x & ->)]; cbn; now rewrite eqb_refl.
      * rewrite emit_emit. eexists. split; [reflexivity|].
        destruct Hes as [-> | (x & ->)]; cbn; now rewrite !eqb_refl.
  - exists []. split; [now rewrite emit_nil | reflexivity].
Qed.

(** X6.  Whatever the state, the settings and the message are,
    [moderateMessage] changes neither the settings, nor the banned
    words, nor the worker; the calls it adds are at most one deletion of
    that message, a chat message only after a deletion, and at most one
    task for that message, last. *)
Theorem moderateMessage_frame (chatMessage : option ChatMessage) st :
  exists es,
    snd (moderateMessage chatMessage st) = emit es st
    /\ match chatMessage with
       | Some m => dispatchTrace m es = true
       | None => es = []
       end.
Proof.
  destruct chatMessage as [m|]; [|exists []; now rewrite emit_nil].
  unfold moderateMessage. destruct (allDisabled_frame st) as [r E].
  destruct r as [off|e].
  - rewrite (bind_ok _ _ _ _ _ E).
    destruct off; [exists []; now rewrite emit_nil|].
    unfold bind at 1, gets; cbn.
    destruct (userIsInRole _ _ _); cbn; [exists []; now rewrite emit_nil|].
    apply stages_trace.
  - rewrite (bind_throw _ _ _ _ _ E). exists []. now rewrite emit_nil.
Qed.

(** *** Strings *)

Lemma spanWord_spec s :
  s = fst (JsString.spanWord s) ++ snd (JsString.spanWord s)
  /\ Forall (fun c => JsString.isWord c = true) (fst (JsString.spanWord s)).
Proof.
  induction s as [|c s [IH1 IH2]]; cbn; [auto|].
  destruct (JsString.isWord c) eqn:Ec; [|cbn; auto].
  destruct (JsString.spanWord s) as [run rest]; cbn in *.
  split; [now rewrite <- IH1 | now constructor].
Qed.

Lemma spanWord_two d e post :
  JsString.isWord d = true -> JsString.isWord e = true ->
  (2 <=? length (fst (JsString.spanWord (d :: e :: post))))%nat = true.
Proof.
  intros Hd He. cbn. rewrite Hd, He.
  destruct (JsString.spanWord post). reflexivity.
Qed.

Lemma last_two {A} (l : list A) :
  2 <= length l -> exists l0 a b, l = l0 ++ [a; b].
Proof.
  induction l as [|x l IH]; cbn; [lia|]. intros Hl.
  destruct l as [|y l]; [cbn in Hl; lia|].
  destruct l as [|z l].
  - exists [], x, y. reflexivity.
  - destruct IH as (l0 & a & b & E); [cbn; lia|].
    exists (x :: l0), a, b. now rewrite E.
Qed.

Lemma urlMatchHere_window s :
  JsString.urlMatchHere s = true ->
  exists pre a b c d e post,
    s = pre ++ [a; b; c; d; e] ++ post /\ urlWindow a b c d e.
Proof.
  unfold JsString.urlMatchHere. destruct (spanWord_spec s) as [Hs Hw].
  destruct (JsString.spanWord s) as [run rest]; cbn in Hs, Hw.
  intros H. apply andb_prop in H as [Hrun Hrest].
  destruct rest as [|c rest]; [discriminate|].
  apply andb_prop in Hrest as [Hc Hrest]. apply N.eqb_eq in Hc.
  apply Nat.leb_le in Hrun, Hrest.
  destruct (last_two run Hrun) as (run0 & a & b & ->).
  destruct (spanWord_spec rest) as [Hr Hw'].
  destruct (JsString.spanWord rest) as [run2 rest2]; cbn in Hr, Hw', Hrest.
  destruct run2 as [|d [|e run']]; cbn in Hrest; try lia.
  exists run0, a, b, c, d, e, (run' ++ rest2).
  split.
  - rewrite Hs, Hr. cbn. rewrite <- !app_assoc. reflexivity.
  - apply Forall_app in Hw as [_ Hab].
    inversion Hab as [|? ? Ha Hb']; subst. inversion Hb' as [|? ? Hb _]; subst.
    inversion Hw' as [|? ? Hd He']; subst. inversion He' as [|? ? He _]; subst.
    repeat split; assumption.
Qed.

Lemma window_urlMatchHere a b c d e post :
  urlWindow a b c d e -> JsString.urlMatchHere ([a; b; c; d; e] ++ post) = true.
Proof.
  intros (Ha & Hb & -> & Hd & He). unfold JsString.urlMatchHere.
  cbn [app JsString.spanWord]. rewrite Ha, Hb.
  change (JsString.isWord 46%N) with false. cbv beta iota.
  rewrite N.eqb_refl. cbn [andb length Nat.leb].
  now apply spanWord_two.
Qed.

(** X7.  The URL pattern matches a text exactly when the text has,
    somewhere, two word characters, a dot and two word characters in a
    row, a word character being a letter A-Z or a-z, a digit or an
    underscore. *)
Theorem urlTest_window s :
  JsString.urlTest s = true
  <-> exists pre a b c d e post,
        s = pre ++ [a; b; c; d; e] ++ post /\ urlWindow a b c d e.
Proof.
  split.
  - induction s as [|x s IH]; intros H.
    + cbn in H. discriminate.
    + cbn [JsString.urlTest] in H. apply orb_prop in H as [H | H].
      * now apply urlMatchHere_window.
      * destruct (IH H) as (pre & a & b & c & d & e & post & -> & W).
        exists (x :: pre), a, b, c, d, e, post. split; [reflexivity | exact W].
  - intros (pre & a & b & c & d & e & post & -> & W).
    induction pre as [|x pre IH].
    + cbn [app]. change (a :: b :: c :: d :: e :: post)
        with ([a; b; c; d; e] ++ post).
      destruct ([a; b; c; d; e] ++ post) eqn:E; [discriminate|].
      cbn [JsString.urlTest]. rewrite <- E.
      now rewrite (window_urlMatchHere a b c d e post W).
    + change ((x :: pre) ++ [a; b; c; d; e] ++ post)
        with (x :: (pre ++ [a; b; c; d; e] ++ post)).
      cbn [JsString.urlTest]. rewrite IH. apply orb_true_r.
Qed.

Lemma codePoints_length s :
  length (JsString.codePoints s) <= length s
  /\ forall c, length (JsString.codePoints (c :: s)) <= S (length s).
Proof.
  induction s as [|x s [IH1 IH2]].
  - split; [cbn; lia | intros c; cbn; lia].
  - split; [apply IH2|]. intros c. pose proof (IH2 x) as Hx.
    change (JsString.codePoints (c :: x :: s))
      with (if JsString.isHigh c && JsString.isLow x
            then (65536 + (c - 55296) * 1024 + (x - 56320))%N
                 :: JsString.codePoints s
            else c :: JsString.codePoints (x :: s)).
    destruct (JsString.isHigh c && JsString.isLow x); cbn [length]; lia.
Qed.

(** X8.  [countEmojis] never counts more than the text has code units;
    a part without text counts for nothing. *)
Theorem countEmojis_bound (str : option jsString) :
  countEmojis str <= length (orEmpty str)
  /\ countEmojis None = 0.
Proof.
  split; [|reflexivity]. unfold countEmojis, orEmpty.
  etransitivity; [apply filter_length_le|].
  destruct str as [s|]; [apply codePoints_length | cbn; lia].
Qed.

Lemma startsWith_app pat post : JsString.startsWith pat (pat ++ post) = true.
Proof.
  induction pat as [|p pat IH]; [reflexivity|]. cbn. now rewrite N.eqb_refl.
Qed.

Lemma skipn_length_app {A} (l1 l2 : list A) : skipn (length l1) (l1 ++ l2) = l2.
Proof. induction l1; cbn; auto. Qed.

Lemma splitFirst_head pat s :
  JsString.startsWith pat s = true ->
  JsString.splitFirst pat s = Some ([], skipn (length pat) s).
Proof. intros E. destruct s; cbn [JsString.splitFirst]; now rewrite E. Qed.

Lemma splitFirst_first pat pre post :
  (forall k, k < length pre -> ~ occursAt pat (pre ++ pat ++ post) k) ->
  JsString.splitFirst pat (pre ++ pat ++ post) = Some (pre, post).
Proof.
  induction pre as [|c pre IH]; intros Hno.
  - cbn [app]. rewrite splitFirst_head by apply startsWith_app.
    now rewrite skipn_length_app.
  - cbn [app JsString.splitFirst].
    destruct (JsString.startsWith pat (c :: pre ++ pat ++ post)) eqn:E.
    + exfalso. apply (Hno 0); [cbn; lia | exact E].
    + rewrite IH; [reflexivity|]. intros k Hk Hocc.
      apply (Hno (S k)); [cbn; lia | exact Hocc].
Qed.

(** X9.  [replace] rewrites the first occurrence of the pattern and only
    that one: with a replacement that has no dollar sign, the text before
    the first occurrence and the text after it are kept and the
    replacement stands between them. *)
Theorem replace_first_occurrence pat pre post r :
  (forall k, k < length pre -> ~ occursAt pat (pre ++ pat ++ post) k) ->
  Forall (fun c => c <> 36%N) r ->
  JsString.replace (pre ++ pat ++ post) pat r = pre ++ r ++ post.
Proof.
  intros Hno Hr. unfold JsString.replace.
  rewrite (splitFirst_first _ _ _ Hno). now rewrite getSubstitution_plain.
Qed.

Lemma occursAt_split pat pre post : occursAt pat (pre ++ pat ++ post) (length pre).
Proof. unfold occursAt. rewrite skipn_length_app. apply startsWith_app. Qed.

(** X10.  A text in which the pattern does not occur is returned as it
    is, whatever the replacement. *)
Theorem replace_absent s pat r :
  (forall k, ~ occursAt pat s k) -> JsString.replace s pat r = s.
Proof.
  intros Hno. unfold JsString.replace.
  destruct (JsString.splitFirst pat s) as [[pre post]|] eqn:E; [|reflexivity].
  exfalso. apply splitFirst_sound in E. subst s.
  exact (Hno _ (occursAt_split pat pre post)).
Qed.

(** *** The policy store *)

Lemma getBannedWordsList_run st :
  getBannedWordsList st = (Ok (flatWords (bannedWords st)), st).
Proof.
  unfold getBannedWordsList, flatWords, bind, gets; cbn.
  destruct (words (bannedWords st)); reflexivity.
Qed.

Lemma saveBannedWordList_calls st :
  saveBannedWordList st = (Ok tt, emit (saveCalls st) st).
Proof.
  destruct st as [s [ws] [w|] n es0];
    unfold saveBannedWordList, saveCalls, getBannedWordsList, flatWords, bind,
      tryCatch, gets, call, modify, ret, emit; cbn.
  - destruct ws; cbn; now rewrite <- app_assoc.
  - reflexivity.
Qed.

Lemma addBannedWords_run st ws newWords :
  words (bannedWords st) = Some ws ->
  addBannedWords newWords st
  = (Ok tt, emit (saveCalls (withWords (ws ++ newWords) st))
                 (withWords (ws ++ newWords) st)).
Proof.
  intros Hw. destruct st as [s [w0] [w|] n es0]; cbn in Hw; subst w0;
    unfold addBannedWords, saveBannedWordList, saveCalls, getBannedWordsList,
      flatWords, withWords, bind, tryCatch, gets, deref, setBannedWords,
      call, modify, ret, emit; cbn;
    [now rewrite <- app_assoc | reflexivity].
Qed.

Lemma removeBannedWord_state st ws wordText :
  words (bannedWords st) = Some ws ->
  removeBannedWord wordText st
  = (Ok tt,
     let kept := filter (fun w => negb (JsString.eqb (toLowerCase (text w))
                                                      wordText)) ws in
     emit (saveCalls (withWords kept st)) (withWords kept st)).
Proof.
  intros Hw. destruct st as [s [w0] [w|] n es0]; cbn in Hw; subst w0;
    unfold removeBannedWord, saveBannedWordList, saveCalls, getBannedWordsList,
      flatWords, withWords, bind, tryCatch, gets, deref, setBannedWords,
      call, modify, ret, emit; cbn;
    [now rewrite <- app_assoc | reflexivity].
Qed.

Lemma removeAllBannedWords_run st :
  removeAllBannedWords st
  = (Ok tt, emit (saveCalls (withWords [] st)) (withWords [] st)).
Proof.
  destruct st as [s bw [w|] n es0];
    unfold removeAllBannedWords, saveBannedWordList, saveCalls,
      getBannedWordsList, flatWords, withWords, bind, tryCatch, gets,
      setBannedWords, call, modify, ret, emit; cbn;
    [now rewrite <- app_assoc | reflexivity].
Qed.

(** X11.  Added words go at the end of the list, duplicates included,
    and show in the next snapshot together with the settings. *)
Theorem addBannedWords_snapshot st ws newWords :
  words (bannedWords st) = Some ws ->
  fst ((addBannedWords newWords ;; getChatModerationData) st)
  = Ok (chatModerationSettings st, Some (ws ++ newWords)).
Proof.
  intros Hw. rewrite (bind_ok _ _ _ _ _ (addBannedWords_run _ _ _ Hw)).
  reflexivity.
Qed.

(** X12.  Every handler that changes the word list and succeeds writes
    the new list to storage and then, if a worker is running, posts it
    the new flattened list; without a worker it posts nothing.  The
    settings and the worker are left as they were. *)
Theorem store_change_saved_and_reloaded (e : StoreEvent) st :
  fst (handle e st) = Ok tt ->
  let st' := snd (handle e st) in
  effects st' = effects st
                ++ pushBannedWords (bannedWords st')
                :: match moderationService st with
                   | Some w => [postMessage w (bannedWordsUpdate
                                                 (flatWords (bannedWords st')))]
                   | None => []
                   end
  /\ chatModerationSettings st' = chatModerationSettings st
  /\ moderationService st' = moderationService st.
Proof.
  destruct e as [newWords | q |]; cbn [handle].
  - destruct (words (bannedWords st)) as [ws|] eqn:Hw.
    + rewrite (addBannedWords_run _ _ _ Hw). cbn. auto.
    + unfold addBannedWords, bind, gets, deref; cbn. rewrite Hw. discriminate.
  - destruct (words (bannedWords st)) as [ws|] eqn:Hw.
    + rewrite (removeBannedWord_state _ _ _ Hw). cbn. auto.
    + unfold removeBannedWord, bind, gets, deref; cbn. rewrite Hw. discriminate.
  - rewrite removeAllBannedWords_run. cbn. auto.
Qed.

(** X13.  After [removeBannedWord] no entry is left whose lower-cased
    text is the query, and removing the same word once more leaves the
    list as it is. *)
Theorem removeBannedWord_idempotent st ws wordText :
  words (bannedWords st) = Some ws ->
  exists kept,
    words (bannedWords (snd (removeBannedWord wordText st))) = Some kept
    /\ (forall w, In w kept -> toLowerCase (text w) <> wordText)
    /\ words (bannedWords (snd ((removeBannedWord wordText ;;
                                 removeBannedWord wordText) st))) = Some kept.
Proof.
  intros Hw.
  set (keep := fun w => negb (JsString.eqb (toLowerCase (text w)) wordText)).
  exists (filter keep ws).
  pose proof (removeBannedWord_state st ws wordText Hw) as E1. cbv zeta in E1.
  fold keep in E1. split; [now rewrite E1|]. split.
  - intros w Hin. apply filter_In in Hin as [_ Hk]. unfold keep in Hk.
    apply negb_true_iff in Hk. intros Heq. apply eqb_eq in Heq. congruence.
  - rewrite (bind_ok _ _ _ _ _ E1).
    rewrite (removeBannedWord_state _ (filter keep ws) wordText) by reflexivity.
    cbn. f_equal. fold keep.
    apply forallb_filter_id. apply forallb_forall.
    intros w Hin. now apply filter_In in Hin.
Qed.

(** X14.  A banned-words object without [words]: the flattened list is
    empty, adding and removing throw a [TypeError] and change nothing,
    and [removeAllBannedWords] sets the list up again, so that the words
    added after it are the whole list. *)
Theorem missing_words st newWords wordText :
  words (bannedWords st) = None ->
  getBannedWordsList st = (Ok [], st)
  /\ addBannedWords newWords st = (Throw TypeError, st)
  /\ removeBannedWord wordText st = (Throw TypeError, st)
  /\ fst ((removeAllBannedWords ;; addBannedWords newWords ;; getBannedWordsList) st)
     = Ok (map text newWords).
Proof.
  intros Hw. repeat split.
  - rewrite getBannedWordsList_run. unfold flatWords. now rewrite Hw.
  - unfold addBannedWords, bind, gets, deref; cbn. now rewrite Hw.
  - unfold removeBannedWord, bind, gets, deref; cbn. now rewrite Hw.
  - rewrite (bind_ok _ _ _ _ _ (removeAllBannedWords_run _)).
    rewrite (bind_ok _ _ _ _ _
               (addBannedWords_run (emit (saveCalls (withWords [] st))
                                         (withWords [] st))
                                   [] newWords eq_refl)).
    rewrite getBannedWordsList_run. reflexivity.
Qed.

(** *** The supervisor *)

Lemma startModerationService_stopped st :
  moderationService st = None ->
  startModerationService st
  = (Ok tt, {|
       chatModerationSettings := chatModerationSettings st;
       bannedWords := bannedWords st;
       moderationService := Some (spawned st);
       spawned := S (spawned st);
       effects := effects st
                  ++ [newWorker (spawned st);
                      postMessage (spawned st)
                        (bannedWordsUpdate (flatWords (bannedWords st)))]
     |}).
Proof.
  intros Hs. destruct st as [s [ws] svc n es0]; cbn in Hs; subst svc.
  unfold startModerationService, getBannedWordsList, flatWords, bind, gets,
    deref, call, modify, ret; cbn.
  destruct ws; cbn; now rewrite <- app_assoc.
Qed.

Lemma startModerationService_started st w :
  moderationService st = Some w -> startModerationService st = (Ok tt, st).
Proof.
  intros Hs. unfold startModerationService, bind, gets; cbn. now rewrite Hs.
Qed.

(** X15.  [stop()] then [start()], from any state: the worker that was
    running, if any, is terminated and released, a new worker is
    created, and the first message it gets is the current flattened
    word list. *)
Theorem restart_hands_over_words st :
  let st' := snd ((stopService ;; startModerationService) st) in
  fst ((stopService ;; startModerationService) st) = Ok tt
  /\ moderationService st' = Some (spawned st)
  /\ effects st'
     = effects st
       ++ match moderationService st with
          | Some w => [terminate w; unref w]
          | None => []
          end
       ++ [newWorker (spawned st);
           postMessage (spawned st) (bannedWordsUpdate (flatWords (bannedWords st)))].
Proof.
  destruct st as [s [ws] [w|] n es0];
    unfold stopService, startModerationService, getBannedWordsList, flatWords,
      setModerationService, bind, gets, deref, call, modify, ret; cbn;
    destruct ws; cbn; repeat split; now rewrite <- ?app_assoc.
Qed.

(** X16.  After a worker fault the worker is released and none is
    started in its place; saving the word list then writes it, posts
    nothing and does not throw. *)
Theorem fault_then_save_posts_nothing st w :
  moderationService st = Some w ->
  let st' := snd ((onWorkerError ;; saveBannedWordList) st) in
  fst ((onWorkerError ;; saveBannedWordList) st) = Ok tt
  /\ moderationService st' = None
  /\ spawned st' = spawned st
  /\ effects st' = effects st ++ [unref w; pushBannedWords (bannedWords st)].
Proof.
  intros Hs. destruct st as [s bw svc n es0]; cbn in Hs; subst svc.
  unfold onWorkerError, saveBannedWordList, setModerationService, bind,
    tryCatch, gets, deref, call, modify, ret; cbn.
  repeat split. now rewrite <- app_assoc.
Qed.

(** X26.  An event of the worker leads to a call only when it is a
    [deleteMessage] event with a non-empty id, and then to the deletion
    of that message alone; a missing event, an event of another type, a
    missing or empty id lead to nothing.  No event changes the settings,
    the words or the worker. *)
Theorem onWorkerMessage_deletes_by_id (event : option WorkerEvent) st :
  exists es,
    onWorkerMessage event st = (Ok tt, emit es st)
    /\ (forall i, event = Some (deleteMessageEvent (Some i)) -> i <> [] ->
                  es = [deleteMessage i])
    /\ ((forall i, event = Some (deleteMessageEvent (Some i)) -> i = []) ->
        es = []).
Proof.
  assert (Hnone : (forall i, event = Some (deleteMessageEvent (Some i)) -> i = []) ->
                  onWorkerMessage event st = (Ok tt, st)).
  { intros H. destruct event as [[[i|]|]|]; try reflexivity.
    rewrite (H i eq_refl). reflexivity. }
  destruct event as [[[[|c i]|]|]|].
  2:{ exists [deleteMessage (c :: i)]. split; [reflexivity | split].
      - intros j Hj _. now injection Hj as <-.
      - intros H. specialize (H _ eq_refl). discriminate. }
  all: exists []; rewrite emit_nil; split;
    [apply Hnone; intros j Hj; now injection Hj as <- || discriminate
    | split; [|reflexivity]].
  - intros j Hj Hne. injection Hj as <-. congruence.
  - intros j Hj. discriminate.
  - intros j Hj. discriminate.
  - intros j Hj. discriminate.
Qed.

(** *** Loading *)

Lemma load_loadedState settingsDoc wordsDoc st :
  load settingsDoc wordsDoc st
  = startModerationService (loadedState settingsDoc wordsDoc st).
Proof.
  unfold load, bind at 1, tryCatch. cbv beta iota. f_equal.
  destruct st as [s0 bw0 svc n es0].
  unfold loadedState, loadedSettings, loadedWords, permitDue; cbn.
  destruct settingsDoc as [[[[b el um rs] k]|]|e]; cbn.
  - destruct b, el, um as [[[|] vt om]|], rs, k as [|k];
      destruct wordsDoc as [[[[[ws|]] [|kw]]|]|e];
      cbn; rewrite ?app_nil_r; reflexivity.
  - destruct wordsDoc as [[[[[ws|]] [|kw]]|]|e]; cbn; now rewrite ?app_nil_r.
  - cbn. now rewrite app_nil_r.
Qed.

(** X17.  [load] leaves a worker running.  When none was running, the
    calls it makes are the registration of the permit command, if the
    settings read have URL moderation enabled, the creation of a worker,
    and the post of the word list as it is after loading.  When one was
    running, nothing is posted to it. *)
Theorem load_starts_worker settingsDoc wordsDoc st :
  let st' := snd (load settingsDoc wordsDoc st) in
  let permit := if permitDue settingsDoc then [registerPermitCommand] else [] in
  match moderationService st with
  | Some w =>
      moderationService st' = Some w
      /\ effects st' = effects st ++ permit
  | None =>
      moderationService st' = Some (spawned st)
      /\ effects st'
         = effects st ++ permit
           ++ [newWorker (spawned st);
               postMessage (spawned st)
                 (bannedWordsUpdate (flatWords (bannedWords st')))]
  end.
Proof.
  cbv zeta. rewrite load_loadedState.
  destruct (moderationService st) as [w|] eqn:Hs.
  - rewrite (startModerationService_started _ w) by exact Hs. auto.
  - rewrite startModerationService_stopped by exact Hs. cbn.
    split; [reflexivity | now rewrite <- app_assoc].
Qed.

(** X18.  The banned words after [load] are the document read, if the
    settings were read without an exception and the document is a
    non-empty object; in every other case, a failed read of the
    settings included, they are the ones from before. *)
Theorem load_words settingsDoc wordsDoc st :
  bannedWords (snd (load settingsDoc wordsDoc st))
  = loadedWords settingsDoc wordsDoc (bannedWords st)
  /\ (forall e, bannedWords (snd (load (Throw e) wordsDoc st)) = bannedWords st).
Proof.
  assert (H : forall sd, bannedWords (snd (load sd wordsDoc st))
                         = loadedWords sd wordsDoc (bannedWords st)).
  { intros sd. rewrite load_loadedState.
    destruct (moderationService st) as [w|] eqn:Hs.
    - now rewrite (startModerationService_started _ w) by exact Hs.
    - now rewrite startModerationService_stopped by exact Hs. }
  split; [apply H|]. intros e. now rewrite H.
Qed.

Lemma loadedSettings_twice sd before :
  loadedSettings sd (loadedSettings sd before) = loadedSettings sd before.
Proof.
  unfold loadedSettings. destruct sd as [[s|]|e]; try reflexivity.
  destruct (hasKeys s); reflexivity.
Qed.

Lemma loadedWords_twice sd wd before :
  loadedWords sd wd (loadedWords sd wd before) = loadedWords sd wd before.
Proof.
  unfold loadedWords. destruct sd as [x|e]; [|reflexivity].
  destruct wd as [[w|]|e]; try reflexivity.
  destruct (hasWordsKey w); reflexivity.
Qed.

(** X19.  Loading the same documents a second time changes neither the
    settings, nor the banned words, nor the worker: all it does is
    register the permit command again, if that was due. *)
Theorem load_twice settingsDoc wordsDoc st :
  let st1 := snd (load settingsDoc wordsDoc st) in
  load settingsDoc wordsDoc st1
  = (Ok tt,
     emit (if permitDue settingsDoc then [registerPermitCommand] else []) st1).
Proof.
  cbv zeta. rewrite (load_loadedState settingsDoc wordsDoc st).
  destruct (startModerationService_running (loadedState settingsDoc wordsDoc st))
    as (w & st1 & E & Hw).
  rewrite E. cbn [snd]. rewrite load_loadedState.
  assert (Hs : chatModerationSettings st1
               = loadedSettings settingsDoc (chatModerationSettings st)).
  { pose proof (startModerationService_settings
                  (loadedState settingsDoc wordsDoc st)) as H.
    rewrite E in H. exact H. }
  assert (Hb : bannedWords st1
               = loadedWords settingsDoc wordsDoc (bannedWords st)).
  { destruct (moderationService (loadedState settingsDoc wordsDoc st)) eqn:Hm.
    - rewrite (startModerationService_started _ _ Hm) in E.
      injection E as <-. reflexivity.
    - rewrite (startModerationService_stopped _ Hm) in E.
      injection E as <-. reflexivity. }
  rewrite (startModerationService_started _ w).
  - f_equal. destruct st1 as [s1 b1 m1 n1 e1]. cbn in Hs, Hb, Hw. subst.
    unfold loadedState, emit; cbn.
    now rewrite loadedSettings_twice, loadedWords_twice.
  - exact Hw.
Qed.

End MoreProperties.

(* ------------------------------------------------------------------ *)
(** ** Properties of the message-actions popover *)

Section HintsProperties.

Import Hints.

Variable message : Hints.Message.

Lemma lit_eqb_false a b :
  JsString.lit a <> JsString.lit b -> JsString.eqb (js a) (js b) = false.
Proof.
  intros H. unfold JsString.eqb, js.
  destruct (list_eq_dec N.eq_dec (JsString.lit a) (JsString.lit b)); congruence.
Qed.

(** X20.  On a message of the streamer or of the bot the only action
    offered is [Delete]. *)
Theorem getActions_own_account accounts :
  streamer accounts = Some (user_name message)
  \/ bot accounts = Some (user_name message) ->
  map name (getActions accounts message) = [js "Delete"].
Proof.
  intros H. unfold getActions, differs.
  destruct H as [-> | ->].
  - unfold JsString.eqb.
    destruct (list_eq_dec N.eq_dec (user_name message) (user_name message));
      [reflexivity | congruence].
  - unfold JsString.eqb at 2.
    destruct (list_eq_dec N.eq_dec (user_name message) (user_name message));
      [|congruence].
    cbn. rewrite andb_false_r. reflexivity.
Qed.

(** X21.  Whatever the accounts and the message: [Delete] comes first,
    no action is offered twice, [Unmod] is offered exactly to a user
    other than the streamer and the bot who has the role [Mod], and
    [Mod] exactly to such a user who has not. *)
Theorem getActions_menu accounts :
  let names := map name (getActions accounts message) in
  let other := differs (user_name message) (streamer accounts)
               && differs (user_name message) (bot accounts) in
  hd_error names = Some (js "Delete")
  /\ NoDup names
  /\ (In (js "Unmod") names
      <-> other = true /\ includes (user_roles message) (js "Mod") = true)
  /\ (In (js "Mod") names
      <-> other = true /\ includes (user_roles message) (js "Mod") = false).
Proof.
  cbv zeta. unfold getActions.
  destruct (differs (user_name message) (streamer accounts)
            && differs (user_name message) (bot accounts));
    [destruct (includes (user_roles message) (js "Mod"))|]; cbn;
    (split; [reflexivity|]); (split; [|split; split]);
    try (repeat constructor; cbn; intuition discriminate);
    try (intros [? ?]; discriminate);
    try (intros H; cbn in H; intuition discriminate);
    intuition auto.
Qed.

Lemma init_consistent : consistent init.
Proof. repeat split. Qed.

Lemma hidePopover_consistent st : consistent st -> consistent (hidePopover st).
Proof.
  intros (Ha & Hd & Hl). unfold hidePopover.
  destruct (isVisible st) eqn:Ev; [|repeat split; congruence].
  repeat split; cbn; assumption.
Qed.

Lemma showPopover_consistent d p st :
  consistent st -> consistent (showPopover message d p st).
Proof.
  intros (Ha & Hd & Hl). unfold showPopover.
  destruct (shouldOpen message && negb (isVisible st)
            && negb (evaluateOuterScopeValue d false)) eqn:E;
    [|repeat split; assumption].
  apply andb_prop in E as [E _]. apply andb_prop in E as [_ Ev].
  apply negb_true_iff in Ev. rewrite Ev in Ha.
  repeat split; cbn. now rewrite Ha.
Qed.

Lemma step_consistent st e : consistent st -> consistent (step message st e).
Proof.
  intros H. destruct e as [d p | a b | n | d p |]; cbn.
  - unfold togglePopover. destruct (negb (isVisible st));
      [now apply showPopover_consistent | now apply hidePopover_consistent].
  - unfold documentClick. destruct (isVisible st && negb a && negb b);
      [now apply hidePopover_consistent | exact H].
  - unfold actionClicked. apply hidePopover_consistent.
    destruct H as (Ha & Hd & Hl). repeat split; assumption.
  - now apply showPopover_consistent.
  - now apply hidePopover_consistent.
Qed.

Lemma fold_step_consistent events st :
  consistent st -> consistent (fold_left (step message) events st).
Proof.
  revert st. induction events as [|e events IH]; intros st H; [exact H|].
  cbn. apply IH. now apply step_consistent.
Qed.

(** X22.  After any sequence of clicks, choices and calls, the popover
    is in the document and displayed exactly when [vm.isVisible] is set,
    and no earlier popover element is left in the document. *)
Theorem popover_consistent events : consistent (run message events).
Proof. apply fold_step_consistent, init_consistent. Qed.

Lemma fold_step_hidden events st :
  shouldOpen message = false -> isVisible st = false ->
  isVisible (fold_left (step message) events st) = false.
Proof.
  intros Hopen. revert st. induction events as [|e events IH]; intros st Hv;
    [exact Hv|].
  cbn. apply IH. destruct e as [d p | a b | n | d p |]; cbn;
    unfold togglePopover, documentClick, actionClicked, showPopover, hidePopover;
    cbn; rewrite ?Hv, ?Hopen; cbn; rewrite ?Hv; reflexivity.
Qed.

(** X23.  The popover of a message whose id is ["System"] never opens,
    whatever happens. *)
Theorem system_message_never_opens events :
  id message = js "System" ->
  isVisible (run message events) = false.
Proof.
  intros Hid. apply fold_step_hidden; [|reflexivity].
  unfold shouldOpen. rewrite Hid. reflexivity.
Qed.

Lemma hidePopover_hidden st : isVisible (hidePopover st) = false.
Proof. unfold hidePopover. destruct (isVisible st) eqn:E; [reflexivity | exact E]. Qed.

Lemma hidePopover_selected st : selected (hidePopover st) = selected st.
Proof. unfold hidePopover. destruct (isVisible st); reflexivity. Qed.

Lemma showPopover_selected d p st :
  selected (showPopover message d p st) = selected st.
Proof. unfold showPopover. destruct (_ && _); reflexivity. Qed.

Lemma step_selected st e :
  selected (step message st e)
  = selected st
    ++ match e with
       | actionChosen n =>
           [ {| actionName := n; userName := user_name message;
                msgId := id message |} ]
       | _ => []
       end.
Proof.
  destruct e as [d p | a b | n | d p |]; cbn; rewrite ?app_nil_r.
  - unfold togglePopover. destruct (negb (isVisible st));
      [apply showPopover_selected | apply hidePopover_selected].
  - unfold documentClick. destruct (_ && _);
      [apply hidePopover_selected | reflexivity].
  - unfold actionClicked. now rewrite hidePopover_selected.
  - apply showPopover_selected.
  - apply hidePopover_selected.
Qed.

Lemma fold_step_selected events st :
  selected (fold_left (step message) events st)
  = selected st
    ++ flat_map (fun e => match e with
                          | actionChosen n =>
                              [ {| actionName := n;
                                   userName := user_name message;
                                   msgId := id message |} ]
                          | _ => []
                          end) events.
Proof.
  revert st. induction events as [|e events IH]; intros st; cbn.
  - now rewrite app_nil_r.
  - rewrite IH, step_selected. now rewrite <- app_assoc.
Qed.

(** X24.  Every action chosen is reported to [onActionSelected] once,
    in order, with the user name and the id of the message, nothing else
    is reported, and the popover is closed after a choice. *)
Theorem choices_reported events :
  selected (run message events)
  = flat_map (fun e => match e with
                       | actionChosen n =>
                           [ {| actionName := n; userName := user_name message;
                                msgId := id message |} ]
                       | _ => []
                       end) events
  /\ forall n, isVisible (run message (events ++ [actionChosen n])) = false.
Proof.
  split.
  - unfold run. now rewrite fold_step_selected.
  - intros n. unfold run. rewrite fold_left_app. cbn [fold_left step].
    unfold actionClicked. apply hidePopover_hidden.
Qed.

(** X25.  For a message that can open, while the directive is not
    disabled, two clicks on the element in a row leave the popover
    visible if it was and hidden if it was. *)
Theorem toggle_twice d1 p1 d2 p2 st :
  shouldOpen message = true ->
  evaluateOuterScopeValue d1 false = false ->
  evaluateOuterScopeValue d2 false = false ->
  isVisible (togglePopover message d2 p2 (togglePopover message d1 p1 st))
  = isVisible st.
Proof.
  intros Hopen H1 H2. unfold togglePopover, showPopover, hidePopover.
  destruct (isVisible st) eqn:Ev; cbn; rewrite ?Ev, ?Hopen, ?H1, ?H2; cbn;
    rewrite ?Hopen, ?H1, ?H2; reflexivity.
Qed.

End HintsProperties.


(* ------------------------------------------------------------------ *)
(** ** The further properties on sample inputs *)

Module OnMoreSamples.

Import Sample MoreSample.

#[local] Existing Instance Sample.collaborators.

(** alice has two hours and the threshold is two hours: her link is
    left alone. *)
Lemma view_time_met_sample :
  let st := running (urlSettings (Some 2%Z) (Some (ViewTime.mk true 2%Z))
                                 (Some (js "Need {viewTime}h, {userName}"))) in
  moderateMessage (Some link) st = (Ok tt, st).
Proof.
  exact (link_view_time_met_no_effect link
           (running (urlSettings (Some 2%Z) (Some (ViewTime.mk true 2%Z))
                                 (Some (js "Need {viewTime}h, {userName}"))))
           (BannedWordList.mk true)
           (EmoteLimit.mk true (Some 2%Z))
           (UrlModeration.mk true (Some (ViewTime.mk true 2%Z))
                             (Some (js "Need {viewTime}h, {userName}")))
           (ViewTime.mk true 2%Z) {| minutesInChannel := 120 |}
           eq_refl eq_refl eq_refl eq_refl eq_refl eq_refl eq_refl eq_refl
           eq_refl eq_refl eq_refl
           (proj1 (Qle_bool_iff (inject_Z 2) (120 # 60)) eq_refl)).
Defined.

(** Without a gate the link of alice is deleted and the template keeps
    its [{viewTime}]. *)
Lemma no_gate_sample :
  let st := running (urlSettings (Some 2%Z) None
                                 (Some (js "Need {viewTime}h, {userName}"))) in
  effects (snd (moderateMessage (Some link) st))
  = effects st
    ++ [deleteMessage (js "m1");
        sendChatMessage (js "Need {viewTime}h, alice");
        postMessage 0 (moderateMessageTask (js "see ab.cd") (js "m1") true)].
Proof.
  exact (link_without_view_time_gate link
           (running (urlSettings (Some 2%Z) None
                                 (Some (js "Need {viewTime}h, {userName}"))))
           (BannedWordList.mk true)
           (EmoteLimit.mk true (Some 2%Z))
           (UrlModeration.mk true None (Some (js "Need {viewTime}h, {userName}")))
           eq_refl eq_refl eq_refl eq_refl eq_refl eq_refl eq_refl eq_refl
           (or_introl eq_refl)).
Defined.

(** A plain message with only the banned-word toggle on is posted. *)
Lemma clean_message_sample :
  let st := running (settings true false false) in
  moderateMessage (Some plain) st
  = (Ok tt, emit [postMessage 0 (moderateMessageTask (js "hello") (js "m1") true)] st).
Proof.
  exact (clean_message_forwarded plain (running (settings true false false))
           (BannedWordList.mk true)
           (EmoteLimit.mk false (Some 2%Z))
           (UrlModeration.mk false (Some (ViewTime.mk true 5%Z))
                             (Some (js "Need {viewTime}h, {userName}")))
           0 eq_refl eq_refl eq_refl eq_refl eq_refl eq_refl eq_refl eq_refl).
Defined.

(** Two emotes and an emoji against a maximum of 0: posted, not
    deleted. *)
Lemma zero_limit_sample :
  let st := running zeroLimit in
  moderateMessage (Some flood) st
  = (Ok tt, emit [postMessage 0 (moderateMessageTask (rawText flood) (js "m1") false)] st).
Proof.
  exact (emote_limit_zero_never_deletes flood (running zeroLimit)
           (BannedWordList.mk false)
           (EmoteLimit.mk true (Some 0%Z)) (UrlModeration.mk false None None)
           0 eq_refl eq_refl eq_refl eq_refl (or_intror eq_refl) eq_refl eq_refl
           eq_refl).
Defined.

(** The settings loaded from the sparse document make every message
    throw. *)
Lemma sparse_settings_sample :
  let st := snd (load (Ok (Some sparseDocument)) (Ok None) initialState) in
  moderateMessage (Some plain) st = (Throw TypeError, st).
Proof.
  exact (missing_bannedWordList_throws plain
           (snd (load (Ok (Some sparseDocument)) (Ok None) initialState)) eq_refl).
Defined.

(** The template up to its first placeholder, with the threshold put
    in. *)
Lemma replace_sample :
  JsString.replace (js "Need " ++ js "{viewTime}" ++ js "h, {viewTime}")
                   (js "{viewTime}") (js "5")
  = js "Need " ++ js "5" ++ js "h, {viewTime}".
Proof.
  apply replace_first_occurrence.
  - intros k Hk. unfold occursAt.
    do 5 (destruct k as [|k]; [cbn; discriminate|]). cbn in Hk. lia.
  - repeat constructor; discriminate.
Defined.

(** A template without the placeholder is left as it is. *)
Lemma replace_absent_sample :
  JsString.replace (js "hello") (js "{userName}") (js "alice") = js "hello".
Proof.
  apply replace_absent. intros k. unfold occursAt.
  do 5 (destruct k as [|k]; [cbn; discriminate|]).
  destruct k; cbn; discriminate.
Defined.

(** Two words added to the empty list. *)
Lemma add_snapshot_sample :
  fst ((addBannedWords [foo; bar] ;; getChatModerationData) initialState)
  = Ok (defaultSettings, Some [foo; bar]).
Proof.
  exact (addBannedWords_snapshot initialState [] [foo; bar] eq_refl).
Defined.

(** Removing a word while a worker runs: the list is written and the
    worker gets the one word left. *)
Lemma store_change_sample :
  let st' := snd (removeBannedWord (js "foo") twoWords) in
  effects st' = effects twoWords
                ++ [pushBannedWords {| words := Some [bar] |};
                    postMessage 0 (bannedWordsUpdate [js "bar"])]
  /\ chatModerationSettings st' = chatModerationSettings twoWords
  /\ moderationService st' = moderationService twoWords.
Proof.
  exact (store_change_saved_and_reloaded (removeWord (js "foo")) twoWords eq_refl).
Defined.

(** Removing ["foo"] twice. *)
Lemma remove_twice_sample :
  exists kept,
    words (bannedWords (snd (removeBannedWord (js "foo") twoWords))) = Some kept
    /\ (forall w, In w kept -> toLowerCase (text w) <> js "foo")
    /\ words (bannedWords (snd ((removeBannedWord (js "foo") ;;
                                 removeBannedWord (js "foo")) twoWords)))
       = Some kept.
Proof.
  exact (removeBannedWord_idempotent twoWords [foo; bar] (js "foo") eq_refl).
Defined.

(** The object without [words]. *)
Lemma missing_words_sample :
  getBannedWordsList noWords = (Ok [], noWords)
  /\ addBannedWords [foo] noWords = (Throw TypeError, noWords)
  /\ removeBannedWord (js "foo") noWords = (Throw TypeError, noWords)
  /\ fst ((removeAllBannedWords ;; addBannedWords [foo] ;; getBannedWordsList) noWords)
     = Ok [js "Foo"].
Proof.
  exact (missing_words noWords [foo] (js "foo") eq_refl).
Defined.

(** A settings document whose one key is [null] is installed and
    filled in. *)
Lemma load_null_roles_sample :
  chatModerationSettings
    (snd (load (Ok (Some nullRolesDocument)) (Ok None) initialState))
  = {| bannedWordList := None;
       emoteLimit := Some (EmoteLimit.mk false (Some 10%Z));
       urlModeration :=
         Some (UrlModeration.mk false (Some (ViewTime.mk false 0%Z)) (Some []));
       exemptRoles := Some [] |}.
Proof. reflexivity. Qed.

(** A banned-words document whose one key is [null] is installed, and
    adding a word then throws. *)
Lemma load_null_words_sample :
  let st := snd (load (Ok None) (Ok (Some nullWordsDocument)) initialState) in
  bannedWords st = {| words := None |}
  /\ fst (addBannedWords [foo] st) = Throw TypeError.
Proof. split; reflexivity. Qed.

(** A fault of the worker of [twoWords], then a save. *)
Lemma fault_then_save_sample :
  let st' := snd ((onWorkerError ;; saveBannedWordList) twoWords) in
  fst ((onWorkerError ;; saveBannedWordList) twoWords) = Ok tt
  /\ moderationService st' = None
  /\ spawned st' = spawned twoWords
  /\ effects st' = effects twoWords
                   ++ [unref 0; pushBannedWords (bannedWords twoWords)].
Proof.
  exact (fault_then_save_posts_nothing twoWords 0 eq_refl).
Defined.

(** The menu on a message of the streamer. *)
Lemma own_account_sample :
  map Hints.name (Hints.getActions accounts streamerMessage) = [js "Delete"].
Proof.
  apply getActions_own_account. left. reflexivity.
Defined.

(** Clicks on a system message. *)
Lemma system_message_sample :
  Hints.isVisible
    (Hints.run systemMessage
       [Hints.elementClick None (js "10", js "20");
        Hints.showCalled (Some false) (js "0", js "0")])
  = false.
Proof.
  apply system_message_never_opens. reflexivity.
Defined.

(** Two clicks on the message of a viewer. *)
Lemma toggle_twice_sample :
  Hints.isVisible
    (Hints.togglePopover viewerMessage None (js "3", js "4")
       (Hints.togglePopover viewerMessage (Some false) (js "1.5", js "2") Hints.init))
  = Hints.isVisible Hints.init.
Proof.
  apply toggle_twice; reflexivity.
Defined.

End OnMoreSamples.
